(** * Habitat-suitability calculator: a shallow embedding of [calculate_uha.py]

    The development follows the script top down:
    - [Float]: the numbers of a numpy [float] array.  A finite double is
      idealised as a real number (no rounding, no overflow, no signed
      zero); the three special values [inf], [-inf] and [nan] are kept,
      because the script relies on how [nan] flows through comparisons,
      products and the square root.
    - [Py]: the exceptions the script can run into and Python indexing.
    - [Numpy], [Pandas], [Rasterio], [Affine]: the library operations
      the script calls ([np.interp], boolean-mask selection and
      assignment, [np.any], [np.count_nonzero], masked arrays, [dropna],
      [sort_values], the two kinds of raster read), each as far as the
      script uses it.
    - [piecewise_linear], [read_suitability_csv] and [calculate_habitat],
      embedded statement by statement.  The three GeoTIFF writes and the
      two prints are left out: a run returns what it would write and
      print.
    - [Double]: [np.interp] and [piecewise_linear] once more on IEEE
      binary64 numbers, to compute what rounding does to a given cell.
      What is proved over [Float] holds of the exact values; where a
      property does not survive rounding, [Double] shows it.
    The rasters of the model hold floating-point samples.  On a raster
    of an integer type the script fails with [TypeError] when it fills
    the masked cells with [nan]; such rasters are outside the model.
    The properties come after all definitions. *)

From Stdlib Require Import Reals Lra List Bool Arith Lia ZArith Permutation.
From Stdlib Require PrimFloat.
Import ListNotations.
Local Open Scope R_scope.

(* ------------------------------------------------------------------ *)
(** ** Floating-point values *)

Module Float.

Inductive float : Type :=
| Fin (r : R)      (* a finite number *)
| PInf             (* +inf *)
| NInf             (* -inf *)
| NaN.             (* not a number: what a missing cell is filled with *)

Definition Rltb (a b : R) : bool := if Rlt_dec a b then true else false.
Definition Reqb (a b : R) : bool := if Req_dec_T a b then true else false.

Definition isnan (a : float) : bool :=
  match a with NaN => true | _ => false end.

Definition isinf (a : float) : bool :=
  match a with PInf | NInf => true | _ => false end.

(** [a < b]; every comparison with [nan] is false. *)
Definition flt (a b : float) : bool :=
  match a, b with
  | Fin x, Fin y => Rltb x y
  | NInf, Fin _ | NInf, PInf | Fin _, PInf => true
  | _, _ => false
  end.

Definition fgt (a b : float) : bool := flt b a.

Definition feq (a b : float) : bool :=
  match a, b with
  | Fin x, Fin y => Reqb x y
  | PInf, PInf | NInf, NInf => true
  | _, _ => false
  end.

Definition fneg (a : float) : float :=
  match a with
  | Fin x => Fin (- x)
  | PInf => NInf
  | NInf => PInf
  | NaN => NaN
  end.

Definition fadd (a b : float) : float :=
  match a, b with
  | NaN, _ | _, NaN => NaN
  | Fin x, Fin y => Fin (x + y)
  | PInf, NInf | NInf, PInf => NaN
  | PInf, _ | _, PInf => PInf
  | NInf, _ | _, NInf => NInf
  end.

Definition fsub (a b : float) : float := fadd a (fneg b).

(** The infinity with the sign of [x], [nan] for [x = 0]. *)
Definition signed_inf (x : R) : float :=
  if Rlt_dec 0 x then PInf else if Rlt_dec x 0 then NInf else NaN.

Definition fmul (a b : float) : float :=
  match a, b with
  | NaN, _ | _, NaN => NaN
  | Fin x, Fin y => Fin (x * y)
  | Fin x, PInf | PInf, Fin x => signed_inf x
  | Fin x, NInf | NInf, Fin x => signed_inf (- x)
  | PInf, PInf | NInf, NInf => PInf
  | PInf, NInf | NInf, PInf => NInf
  end.

(** Division.  A divisor that is zero is read as [+0.0]: the only
    divisors of the script are differences [x1 - x0] of two finite
    numbers, and [a - a] is [+0.0]. *)
Definition fdiv (a b : float) : float :=
  match a, b with
  | NaN, _ | _, NaN => NaN
  | Fin x, Fin y => if Req_dec_T y 0 then signed_inf x else Fin (x / y)
  | Fin _, PInf | Fin _, NInf => Fin 0
  | PInf, Fin y => if Rlt_dec y 0 then NInf else PInf
  | NInf, Fin y => if Rlt_dec y 0 then PInf else NInf
  | _, _ => NaN
  end.

(** [np.sqrt]: the square root of a negative number is [nan]; numpy
    reports it with a [RuntimeWarning], which is not an exception. *)
Definition fsqrt (a : float) : float :=
  match a with
  | Fin x => if Rlt_dec x 0 then NaN else Fin (sqrt x)
  | PInf => PInf
  | NInf | NaN => NaN
  end.

End Float.
Import Float.

(* ------------------------------------------------------------------ *)
(** ** Python exceptions and indexing *)

Module Py.

Inductive exception : Type :=
| IndexError       (* index out of bounds *)
| ValueError.      (* raised by numpy on ill-shaped arguments *)

(** A computation that returns a value or raises. *)
Definition exc (A : Type) : Type := (exception + A)%type.

Definition ret {A} (a : A) : exc A := inr a.
Definition raise {A} (e : exception) : exc A := inl e.
Definition bind {A B} (c : exc A) (k : A -> exc B) : exc B :=
  match c with
  | inl e => inl e
  | inr a => k a
  end.

(** [a[i]] for an integer [i]; a negative index counts from the end. *)
Definition getitem {A} (a : list A) (i : Z) : exc A :=
  let n := Z.of_nat (length a) in
  let k := if (i <? 0)%Z then (n + i)%Z else i in
  if ((0 <=? k) && (k <? n))%Z then
    match nth_error a (Z.to_nat k) with
    | Some x => ret x
    | None => raise IndexError
    end
  else raise IndexError.

End Py.
Import Py.

Notation "x <- c ;; k" := (bind c (fun x => k))
  (at level 61, c at next level, right associativity).
Notation "' p <- c ;; k" := (bind c (fun x => let 'p := x in k))
  (at level 61, p pattern, c at next level, right associativity).

(* ------------------------------------------------------------------ *)
(** ** The numpy operations the script uses *)

(** An array of floats: its shape and its cells in row-major order. *)
Record ndarray : Type := { shape : list nat; cells : list float }.

(** A masked array ([np.ma]): a cell whose mask is [true] is missing. *)
Record marray : Type :=
  { ma_shape : list nat; ma_data : list float; ma_mask : list bool }.

Module Numpy.

(** [np.any(mask)]. *)
Definition any (mask : list bool) : bool := existsb (fun b => b) mask.

(** [np.count_nonzero(mask)]. *)
Definition count_nonzero (mask : list bool) : nat :=
  length (filter (fun b => b) mask).

(** [a[mask]]: the cells of [a] selected by a boolean mask, in order. *)
Fixpoint select {A} (a : list A) (mask : list bool) : list A :=
  match a, mask with
  | x :: a', b :: mask' =>
      if b then x :: select a' mask' else select a' mask'
  | _, _ => []
  end.

(** [a[mask] = vals]: the selected cells of [a] are overwritten, in
    order, by the cells of [vals]. *)
Fixpoint assign {A} (a : list A) (mask : list bool) (vals : list A)
  : list A :=
  match a, mask with
  | x :: a', true :: mask' =>
      match vals with
      | v :: vals' => v :: assign a' mask' vals'
      | [] => x :: assign a' mask' []
      end
  | x :: a', false :: mask' => x :: assign a' mask' vals
  | _, _ => a
  end.

(** The search of [np.interp] ([binary_search_with_guess] in numpy's
    [compiled_base.c]) for the segment of a finite [key] with
    [arr[0] <= key <= arr[len-1]]:
    [for (i = 1; i < len && key >= arr[i]; ++i); return i - 1;].
    This is the loop numpy runs on arrays of up to four cells; on
    longer ones it bisects, down to an index [j] with
    [arr[j] <= key < arr[j+1]].  On a sorted array there is one such
    index, the one of the loop (lemma [search_determined]).
    The argument is [arr[1:]]. *)
Fixpoint linear_search (key : R) (arr_tl : list R) : nat :=
  match arr_tl with
  | [] => 0%nat
  | a :: tl => if Rle_dec a key then S (linear_search key tl) else 0%nat
  end.

Inductive position : Type :=
| Below             (* key < arr[0]: numpy's -1 *)
| Above             (* key > arr[len-1]: numpy's len *)
| Index (j : nat).

Definition binary_search (key : float) (arr : list R) : position :=
  if fgt key (Fin (last arr 0)) then Above
  else if flt key (Fin (hd 0 arr)) then Below
  else match key with
       | Fin k => Index (linear_search k (tl arr))
       | _ => Index 0
       end.

(** One cell of [np.interp] for two or more sample points (the loop of
    [arr_interp] in numpy's [compiled_base.c]). *)
Definition interp_cell (xp fp : list R) (lval rval : R) (x : float)
  : float :=
  if isnan x then x
  else
    match binary_search x xp with
    | Below => Fin lval
    | Above => Fin rval
    | Index j =>
        let xj := nth j xp 0 in
        let fj := nth j fp 0 in
        let xj1 := nth (S j) xp 0 in
        let fj1 := nth (S j) fp 0 in
        if (j =? length xp - 1)%nat then Fin fj
        else if feq (Fin xj) x then Fin fj
        else
          let slope := fdiv (fsub (Fin fj1) (Fin fj))
                            (fsub (Fin xj1) (Fin xj)) in
          let res := fadd (fmul slope (fsub x (Fin xj))) (Fin fj) in
          if isnan res then
            (* numpy: if we get nan in one direction, try the other *)
            let res' := fadd (fmul slope (fsub x (Fin xj1))) (Fin fj1) in
            if isnan res' && Reqb fj fj1 then Fin fj else res'
          else res
    end.

(** One cell of [np.interp] for a single sample point.  numpy has a
    branch of its own for this case, and that branch does not test
    for [nan]. *)
Definition interp_cell1 (xp_val fp_val lval rval : R) (x : float)
  : float :=
  if flt x (Fin xp_val) then Fin lval
  else if fgt x (Fin xp_val) then Fin rval
  else Fin fp_val.

(** [np.interp(x, xp, fp)] with the default [left] and [right]. *)
Definition interp (x : list float) (xp fp : list R) : exc (list float) :=
  if (length xp =? 0)%nat then raise ValueError
  else if negb (length fp =? length xp)%nat then raise ValueError
  else
    let lval := hd 0 fp in
    let rval := last fp 0 in
    if (length xp =? 1)%nat
    then ret (map (interp_cell1 (hd 0 xp) (hd 0 fp) lval rval) x)
    else ret (map (interp_cell xp fp lval rval) x).

(** [m.filled(fill)]: the missing cells take the value [fill]. *)
Definition filled (m : marray) (fill : float) : ndarray :=
  {| shape := ma_shape m;
     cells := map (fun '(d, b) => if (b : bool) then fill else d)
                  (combine (ma_data m) (ma_mask m)) |}.

(** [np.ma.masked_invalid(a)]: masks the cells that are [nan] or
    infinite.  [a] is a plain array or a masked one; a masked array
    keeps the cells it has masked already. *)
Definition masked_invalid (a : ndarray + marray) : marray :=
  let invalid := fun d => isnan d || isinf d in
  match a with
  | inl a =>
      {| ma_shape := shape a; ma_data := cells a;
         ma_mask := map invalid (cells a) |}
  | inr m =>
      {| ma_shape := ma_shape m; ma_data := ma_data m;
         ma_mask := map (fun '(d, b) => invalid d || b)
                        (combine (ma_data m) (ma_mask m)) |}
  end.

(** [a * b] for two arrays of one shape.  With unequal shapes numpy
    broadcasts or raises; [calculate_habitat] multiplies two arrays of
    the shape of the depth raster only. *)
Definition multiply (a b : ndarray) : exc ndarray :=
  if list_eq_dec Nat.eq_dec (shape a) (shape b) then
    ret {| shape := shape a;
           cells := map (fun '(x, y) => fmul x y)
                        (combine (cells a) (cells b)) |}
  else raise ValueError.

(** [np.sqrt(a)]. *)
Definition sqrt (a : ndarray) : ndarray :=
  {| shape := shape a; cells := map fsqrt (cells a) |}.

(** [a > t] for a scalar [t]. *)
Definition greater (a : ndarray) (t : float) : list bool :=
  map (fun c => fgt c t) (cells a).

End Numpy.

(* ------------------------------------------------------------------ *)
(** ** [piecewise_linear] *)

(** Piece-wise linear interpolation with linear extrapolation.  The
    break points are finite numbers; [values] may hold [nan].  Every
    step works cell by cell, so the steps run on the flat list of cells
    and the result takes the shape of [values]. *)
Definition piecewise_linear (values : ndarray) (x_pts y_pts : list R)
  : exc ndarray :=
  let arr := cells values in
  (* Interpolate where in range *)
  si <- Numpy.interp arr x_pts y_pts ;;
  (* Extrapolate on the left side *)
  x0 <- getitem x_pts 0 ;;
  let left := map (fun a => flt a (Fin x0)) arr in
  si <- (if Numpy.any left then
           y1 <- getitem y_pts 1 ;;
           y0 <- getitem y_pts 0 ;;
           x1 <- getitem x_pts 1 ;;
           let slope_left :=
             fdiv (fsub (Fin y1) (Fin y0)) (fsub (Fin x1) (Fin x0)) in
           ret (Numpy.assign si left
                  (map (fun a => fadd (Fin y0)
                                   (fmul slope_left (fsub a (Fin x0))))
                       (Numpy.select arr left)))
         else ret si) ;;
  (* Extrapolate on the right side *)
  xl <- getitem x_pts (-1) ;;
  let right := map (fun a => fgt a (Fin xl)) arr in
  si <- (if Numpy.any right then
           yl <- getitem y_pts (-1) ;;
           yp <- getitem y_pts (-2) ;;
           xp <- getitem x_pts (-2) ;;
           let slope_right :=
             fdiv (fsub (Fin yl) (Fin yp)) (fsub (Fin xl) (Fin xp)) in
           ret (Numpy.assign si right
                  (map (fun a => fadd (Fin yl)
                                   (fmul slope_right (fsub a (Fin xl))))
                       (Numpy.select arr right)))
         else ret si) ;;
  ret {| shape := shape values; cells := si |}.

(* ------------------------------------------------------------------ *)
(** ** [read_suitability_csv] *)

(** A data row of the CSV as [pd.read_csv] hands it over: four columns
    named [h], [si_h], [v], [si_v]; an empty field is read as [nan]
    ([None] here), any other field is a number. *)
Record csv_row : Type :=
  { col_h : option R; col_si_h : option R;
    col_v : option R; col_si_v : option R }.

Module Pandas.

(** [df[[a, b]].dropna()]: the rows where both columns hold a number. *)
Fixpoint dropna (rows : list (option R * option R)) : list (R * R) :=
  match rows with
  | [] => []
  | (Some x, Some y) :: rows' => (x, y) :: dropna rows'
  | _ :: rows' => dropna rows'
  end.

Fixpoint insert (p : R * R) (sorted : list (R * R)) : list (R * R) :=
  match sorted with
  | [] => [p]
  | q :: sorted' =>
      if Rle_dec (fst p) (fst q) then p :: sorted
      else q :: insert p sorted'
  end.

(** [df.sort_values(x)]: the rows in ascending order of the first
    column.  Rows that share their [x] are kept in the order of the
    file here; pandas does not promise an order for them. *)
Fixpoint sort_values (rows : list (R * R)) : list (R * R) :=
  match rows with
  | [] => []
  | p :: rows' => insert p (sort_values rows')
  end.

End Pandas.

(** Reads the two curves and returns their break points, sorted by [x].
    The function has no check of its own: it returns whatever number of
    complete rows the file holds. *)
Definition read_suitability_csv (raw : list csv_row)
  : exc (list R * list R * list R * list R) :=
  let depth_df := Pandas.dropna (map (fun r => (col_h r, col_si_h r)) raw) in
  let vel_df := Pandas.dropna (map (fun r => (col_v r, col_si_v r)) raw) in
  let depth_df := Pandas.sort_values depth_df in
  let vel_df := Pandas.sort_values vel_df in
  ret (map fst depth_df, map snd depth_df, map fst vel_df, map snd vel_df).

(* ------------------------------------------------------------------ *)
(** ** Raster datasets *)

(** The six coefficients of a rasterio affine transform;
    [transform[0]] is [a], the pixel width, and [transform[4]] is [e],
    the negative pixel height. *)
Module Affine.

Record t : Type :=
  { a : R; b : R; c : R; d : R; e : R; f : R }.

(** [s == t]: the coefficients are compared one by one. *)
Definition eqb (s t : t) : bool :=
  Reqb (a s) (a t) && Reqb (b s) (b t) && Reqb (c s) (c t) &&
  Reqb (d s) (d t) && Reqb (e s) (e t) && Reqb (f s) (f t).

End Affine.

(** An open single-band GeoTIFF.  [band k] is the stored sample of the
    pixel with row-major index [k] and [nodata k] tells whether the file
    declares that pixel as having no data.  [bilinear h' w' k] is pixel
    [k] of what GDAL's bilinear resampling of the stored samples to
    [h'] rows and [w'] columns returns; the resampling is GDAL's and is
    not modelled further.  The samples are of a floating-point type: an
    integer raster makes [filled(np.nan)] raise [TypeError], an
    exception and an outcome of a run the model does not have. *)
Record dataset : Type :=
  { width : nat;
    height : nat;
    transform : Affine.t;
    band : nat -> float;
    nodata : nat -> bool;
    bilinear : nat -> nat -> nat -> float }.

Module Rasterio.

(** [src.read(1, masked=True)]. *)
Definition read_masked (src : dataset) : marray :=
  let n := (height src * width src)%nat in
  {| ma_shape := [height src; width src];
     ma_data := map (band src) (seq 0 n);
     ma_mask := map (nodata src) (seq 0 n) |}.

(** [src.read(out_shape=(1, h', w'), resampling=Resampling.bilinear)[0]].
    The read is not masked: it returns numbers only, the stored
    samples themselves when the shape asked for is the shape of the
    file. *)
Definition read_resampled (src : dataset) (h' w' : nat) : ndarray :=
  {| shape := [h'; w'];
     cells := if ((h' =? height src) && (w' =? width src))%nat
              then map (band src) (seq 0 (h' * w'))
              else map (bilinear src h' w') (seq 0 (h' * w')) |}.

End Rasterio.

(* ------------------------------------------------------------------ *)
(** ** [calculate_habitat] *)

(** What a run produces: the three rasters it hands to the writer (which
    stores [nan] as the nodata value -9999) and the numbers it prints. *)
Record habitat : Type :=
  { SI_depth : ndarray;
    SI_velocity : ndarray;
    cHSI : ndarray;
    usable : list bool;
    n_pixels : nat;
    pixel_area_m2 : R;
    total_area_m2 : R }.

(** Step 2 of [calculate_habitat]: the velocity raster on the grid of
    the depth raster. *)
Definition read_velocity (dep_src vel_src : dataset) : marray :=
  let vel_data :=
    (* Resample velocity if the grids differ *)
    if negb (width vel_src =? width dep_src)%nat
       || negb (height vel_src =? height dep_src)%nat
       || negb (Affine.eqb (transform vel_src) (transform dep_src))
    then inl (Rasterio.read_resampled vel_src (height dep_src) (width dep_src))
    else inr (Rasterio.read_masked vel_src) in
  Numpy.masked_invalid vel_data.

(** Step 5 of [calculate_habitat]: the usable-habitat statistics. *)
Definition statistics (chsi : ndarray) (threshold : float)
  (profile_transform : Affine.t) : list bool * nat * R * R :=
  let usable := Numpy.greater chsi threshold in
  let n_pixels := Numpy.count_nonzero usable in
  let pixel_area_m2 := Rabs (Affine.a profile_transform * Affine.e profile_transform) in
  let total_area_m2 := INR n_pixels * pixel_area_m2 in
  (usable, n_pixels, pixel_area_m2, total_area_m2).

Definition calculate_habitat (dep_src vel_src : dataset)
  (csv : list csv_row) (threshold : float) : exc habitat :=
  (* 1. Suitability curves *)
  '(h_pts, si_h_pts, v_pts, si_v_pts) <- read_suitability_csv csv ;;
  (* 2. Open rasters *)
  let depth := Rasterio.read_masked dep_src in
  let velocity := read_velocity dep_src vel_src in
  (* 3. Calculate SI rasters *)
  si_h <- piecewise_linear (Numpy.filled depth NaN) h_pts si_h_pts ;;
  si_v <- piecewise_linear (Numpy.filled velocity NaN) v_pts si_v_pts ;;
  (* 4. Combined HSI *)
  prod <- Numpy.multiply si_h si_v ;;
  let chsi := Numpy.sqrt prod in
  (* 5. Usable-habitat statistics *)
  let '(usable, n_pixels, pixel_area_m2, total_area_m2) :=
    statistics chsi threshold (transform dep_src) in
  ret {| SI_depth := si_h; SI_velocity := si_v; cHSI := chsi;
         usable := usable; n_pixels := n_pixels;
         pixel_area_m2 := pixel_area_m2; total_area_m2 := total_area_m2 |}.

(* ------------------------------------------------------------------ *)
(** ** [piecewise_linear] on the doubles of the machine *)

(** The same function once more, statement by statement, with the cells
    and the break points as IEEE binary64 numbers and the arithmetic of
    the machine (Rocq's primitive floats: every operation rounds to
    nearest, as numpy's does).  It computes, so it tells what rounding
    does to a given cell; the shape of the array plays no role and is
    left out. *)
Module Double.
Import PrimFloat.

Definition double : Set := PrimFloat.float.

Fixpoint linear_search (key : double) (arr_tl : list double) : nat :=
  match arr_tl with
  | [] => 0%nat
  | a :: tl => if leb a key then S (linear_search key tl) else 0%nat
  end.

Definition binary_search (key : double) (arr : list double)
  : Numpy.position :=
  if ltb (last arr zero) key then Numpy.Above
  else if ltb key (hd zero arr) then Numpy.Below
  else Numpy.Index (linear_search key (tl arr)).

Definition interp_cell (xp fp : list double) (lval rval x : double)
  : double :=
  if is_nan x then x
  else
    match binary_search x xp with
    | Numpy.Below => lval
    | Numpy.Above => rval
    | Numpy.Index j =>
        let xj := nth j xp zero in
        let fj := nth j fp zero in
        let xj1 := nth (S j) xp zero in
        let fj1 := nth (S j) fp zero in
        if (j =? length xp - 1)%nat then fj
        else if eqb xj x then fj
        else
          let slope := div (sub fj1 fj) (sub xj1 xj) in
          let res := add (mul slope (sub x xj)) fj in
          if is_nan res then
            let res' := add (mul slope (sub x xj1)) fj1 in
            if is_nan res' && eqb fj fj1 then fj else res'
          else res
    end.

Definition interp_cell1 (xp_val fp_val lval rval x : double) : double :=
  if ltb x xp_val then lval
  else if ltb xp_val x then rval
  else fp_val.

Definition interp (x xp fp : list double) : exc (list double) :=
  if (length xp =? 0)%nat then raise ValueError
  else if negb (length fp =? length xp)%nat then raise ValueError
  else
    let lval := hd zero fp in
    let rval := last fp zero in
    if (length xp =? 1)%nat
    then ret (map (interp_cell1 (hd zero xp) (hd zero fp) lval rval) x)
    else ret (map (interp_cell xp fp lval rval) x).

Definition piecewise_linear (values x_pts y_pts : list double)
  : exc (list double) :=
  let arr := values in
  (* Interpolate where in range *)
  si <- interp arr x_pts y_pts ;;
  (* Extrapolate on the left side *)
  x0 <- getitem x_pts 0 ;;
  let left := map (fun a => ltb a x0) arr in
  si <- (if Numpy.any left then
           y1 <- getitem y_pts 1 ;;
           y0 <- getitem y_pts 0 ;;
           x1 <- getitem x_pts 1 ;;
           let slope_left := div (sub y1 y0) (sub x1 x0) in
           ret (Numpy.assign si left
                  (map (fun a => add y0 (mul slope_left (sub a x0)))
                     (Numpy.select arr left)))
         else ret si) ;;
  (* Extrapolate on the right side *)
  xl <- getitem x_pts (-1) ;;
  let right := map (fun a => ltb xl a) arr in
  si <- (if Numpy.any right then
           yl <- getitem y_pts (-1) ;;
           yp <- getitem y_pts (-2) ;;
           xp <- getitem x_pts (-2) ;;
           let slope_right := div (sub yl yp) (sub xl xp) in
           ret (Numpy.assign si right
                  (map (fun a => add yl (mul slope_right (sub a xl)))
                     (Numpy.select arr right)))
         else ret si) ;;
  ret si.

(** [lo <= c <= hi], in the order of the doubles. *)
Definition within (lo hi c : double) : bool := leb lo c && leb c hi.

(** The break points are strictly ascending, in the order of the
    doubles. *)
Fixpoint ascending (xs : list double) : bool :=
  match xs with
  | x :: (y :: _) as xs' => ltb x y && ascending xs'
  | _ => true
  end.

(** The worked example of the specification; all its numbers are
    doubles. *)
Definition example_x : list double := [0; 1; 2]%float.
Definition example_y : list double := [0; 0x1p-1; 1]%float.
Definition example_values : list double :=
  [-1; 0; 0x1p-1; 1; 0x1.8p+0; 3]%float.

(** A curve with ordinates in [0, 1]: the doubles next to 0.7, 3.51,
    0.1, and 1; and the double just below its last abscissa. *)
Definition rounding_x : list double :=
  [0x1.6666666666666p-1; 0x1.c147ae147ae14p+1]%float.
Definition rounding_y : list double := [0x1.999999999999ap-4; 1]%float.
Definition rounding_v : double := 0x1.c147ae147ae13p+1%float.

(** The numbers the specification gives for the worked example:
    -0.5, 0, 0.25, 0.5, 0.75, 1.5. *)
Definition example_si : list double :=
  [-0x1p-1; 0; 0x1p-2; 0x1p-1; 0x1.8p-1; 0x1.8p+0]%float.

(** The double just above 1: 1 + 2^-52, printed 1.0000000000000002. *)
Definition above_one : double := 0x1.0000000000001p+0%float.

End Double.

(* ------------------------------------------------------------------ *)
(** ** Vocabulary of the properties *)

(** The break-point abscissas are strictly ascending (hence unique). *)
Fixpoint ascending (xs : list R) : Prop :=
  match xs with
  | x :: (y :: _) as xs' => x < y /\ ascending xs'
  | _ => True
  end.

(** The abscissas are sorted, with ties allowed: what sorting alone
    gives. *)
Fixpoint nondecreasing (xs : list R) : Prop :=
  match xs with
  | x :: (y :: _) as xs' => x <= y /\ nondecreasing xs'
  | _ => True
  end.

(** The value at [v] of the straight line through [(x0, y0)] and
    [(x1, y1)]. *)
Definition line_through (x0 y0 x1 y1 v : R) : R :=
  y0 + (y1 - y0) / (x1 - x0) * (v - x0).

(** The slope of a segment as the script computes it. *)
Definition slope (x0 y0 x1 y1 : R) : float :=
  fdiv (fsub (Fin y1) (Fin y0)) (fsub (Fin x1) (Fin x0)).

(** What [piecewise_linear] leaves in one cell when the curve has two
    break points or more: the right extrapolation is assigned last, the
    left one before it, over the value of [np.interp]. *)
Definition si_cell (x_pts y_pts : list R) (v : float) : float :=
  let n := length x_pts in
  let x0 := nth 0 x_pts 0 in
  let y0 := nth 0 y_pts 0 in
  let xl := nth (n - 1) x_pts 0 in
  let yl := nth (n - 1) y_pts 0 in
  if fgt v (Fin xl) then
    fadd (Fin yl)
      (fmul (slope (nth (n - 2) x_pts 0) (nth (n - 2) y_pts 0) xl yl)
         (fsub v (Fin xl)))
  else if flt v (Fin x0) then
    fadd (Fin y0)
      (fmul (slope x0 y0 (nth 1 x_pts 0) (nth 1 y_pts 0)) (fsub v (Fin x0)))
  else Numpy.interp_cell x_pts y_pts (hd 0 y_pts) (last y_pts 0) v.

(** [exceeds c t]: the cell [c] is strictly greater than the threshold
    [t].  Nothing exceeds [nan] and [nan] exceeds nothing. *)
Inductive exceeds : float -> float -> Prop :=
| exceeds_fin (x y : R) : y < x -> exceeds (Fin x) (Fin y)
| exceeds_fin_ninf (x : R) : exceeds (Fin x) NInf
| exceeds_pinf_fin (y : R) : exceeds PInf (Fin y)
| exceeds_pinf_ninf : exceeds PInf NInf.

(** A cell of a raster (given by its samples and its no-data flags) is
    missing when it is flagged or holds [nan]. *)
Definition missing (sample : nat -> float) (flag : nat -> bool) (k : nat)
  : Prop :=
  flag k = true \/ sample k = NaN.

(** The two rasters are on one grid: the test of [calculate_habitat]. *)
Definition same_grid (dep_src vel_src : dataset) : Prop :=
  width vel_src = width dep_src /\ height vel_src = height dep_src /\
  transform vel_src = transform dep_src.

(** The break points that remain for a variable once the incomplete
    rows are dropped. *)
Definition depth_points (raw : list csv_row) : list (R * R) :=
  Pandas.dropna (map (fun r => (col_h r, col_si_h r)) raw).

Definition velocity_points (raw : list csv_row) : list (R * R) :=
  Pandas.dropna (map (fun r => (col_v r, col_si_v r)) raw).

(** The worked example of the specification: the curve through
    (0, 0), (1, 0.5), (2, 1) and six input values, two of them outside
    the domain of the curve. *)
Definition example_x : list R := [0; 1; 2].
Definition example_y : list R := [0; 1 / 2; 1].
Definition example_values : ndarray :=
  {| shape := [6%nat];
     cells := [Fin (-1); Fin 0; Fin (1 / 2); Fin 1; Fin (3 / 2); Fin 3] |}.

(** A small run: a curve file whose last row has an empty depth
    column, and two rasters of two rows and two columns on one grid of
    10 m pixels.  The depth raster has a cell left of the curve, a
    [nan] cell and a cell declared as no data. *)
Definition example_csv : list csv_row :=
  [ {| col_h := Some 0; col_si_h := Some 0;
       col_v := Some 0; col_si_v := Some 0 |};
    {| col_h := Some 1; col_si_h := Some (1 / 2);
       col_v := Some 1; col_si_v := Some (1 / 2) |};
    {| col_h := Some 2; col_si_h := Some 1;
       col_v := Some 2; col_si_v := Some 1 |};
    {| col_h := None; col_si_h := None;
       col_v := Some 3; col_si_v := Some 0 |} ].

Definition example_transform : Affine.t :=
  {| Affine.a := 10; Affine.b := 0; Affine.c := 0;
     Affine.d := 0; Affine.e := -10; Affine.f := 0 |}.

Definition example_depth : dataset :=
  {| width := 2; height := 2; transform := example_transform;
     band := fun k => nth k [Fin 1; Fin (-1); NaN; Fin 2] NaN;
     nodata := fun k => nth k [false; false; false; true] false;
     bilinear := fun _ _ _ => NaN |}.

Definition example_velocity : dataset :=
  {| width := 2; height := 2; transform := example_transform;
     band := fun k => nth k [Fin 1; Fin 1; Fin 2; Fin 1] NaN;
     nodata := fun _ => false;
     bilinear := fun _ _ _ => NaN |}.

(** What the small run on the two rasters of one grid is expected to
    give for the threshold 0.4: one usable pixel of 100 square metres. *)
Definition example_out : habitat :=
  {| SI_depth :=
       {| shape := [2; 2]%nat;
          cells := [Fin (1 / 2); Fin (- (1 / 2)); NaN; NaN] |};
     SI_velocity :=
       {| shape := [2; 2]%nat;
          cells := [Fin (1 / 2); Fin (1 / 2); Fin 1; Fin (1 / 2)] |};
     cHSI :=
       {| shape := [2; 2]%nat; cells := [Fin (1 / 2); NaN; NaN; NaN] |};
     usable := [true; false; false; false];
     n_pixels := 1;
     pixel_area_m2 := 100;
     total_area_m2 := 100 |}.

(** The velocity raster of the small run, on a grid shifted by half a
    pixel and with its first cell declared as no data; the file stores
    -9999 there. *)
Definition example_shifted_velocity : dataset :=
  {| width := 2; height := 2;
     transform :=
       {| Affine.a := 10; Affine.b := 0; Affine.c := 5;
          Affine.d := 0; Affine.e := -10; Affine.f := 0 |};
     band := fun k => nth k [Fin (-9999); Fin 1; Fin 2; Fin 1] NaN;
     nodata := fun k => nth k [true; false; false; false] false;
     bilinear := fun _ _ _ => NaN |}.

(** A curve file with a single complete row. *)
Definition single_row_csv : list csv_row :=
  [ {| col_h := Some 1; col_si_h := Some (1 / 2);
       col_v := Some 1; col_si_v := Some (1 / 2) |} ].

(** Two rasters on the grid of the small run for the one-row curve
    file: every sample is 1, the abscissa of the single break point of
    either curve; the second cell of the depth raster is declared as no
    data and stores -9999. *)
Definition example_depth_on_point : dataset :=
  {| width := 2; height := 2; transform := example_transform;
     band := fun k => nth k [Fin 1; Fin (-9999); Fin 1; Fin 1] NaN;
     nodata := fun k => nth k [false; true; false; false] false;
     bilinear := fun _ _ _ => NaN |}.

Definition example_velocity_on_point : dataset :=
  {| width := 2; height := 2; transform := example_transform;
     band := fun k => nth k [Fin 1; Fin 1; Fin 1; Fin 1] NaN;
     nodata := fun _ => false;
     bilinear := fun _ _ _ => NaN |}.

(** What the run on these two rasters gives with the one-row curve file
    and the threshold 0.4: the ordinate 0.5 in every cell, the cell
    without data included, and four usable pixels. *)
Definition example_out_on_point : habitat :=
  {| SI_depth :=
       {| shape := [2; 2]%nat;
          cells := [Fin (1 / 2); Fin (1 / 2); Fin (1 / 2); Fin (1 / 2)] |};
     SI_velocity :=
       {| shape := [2; 2]%nat;
          cells := [Fin (1 / 2); Fin (1 / 2); Fin (1 / 2); Fin (1 / 2)] |};
     cHSI :=
       {| shape := [2; 2]%nat;
          cells := [Fin (1 / 2); Fin (1 / 2); Fin (1 / 2); Fin (1 / 2)] |};
     usable := [true; true; true; true];
     n_pixels := 4;
     pixel_area_m2 := 100;
     total_area_m2 := 400 |}.

(** No cell of [values] lies below or above the first break point. *)
Definition on_point (x_pts : list R) (values : ndarray) : Prop :=
  forall c, In c (cells values) ->
    flt c (Fin (nth 0 x_pts 0)) = false /\ fgt c (Fin (nth 0 x_pts 0)) = false.

(** The curve has two break points or more, or it has one and every
    cell of [values] sits on it or is [nan]. *)
Definition interpolable (x_pts : list R) (values : ndarray) : Prop :=
  (2 <= length x_pts)%nat \/ (length x_pts = 1%nat /\ on_point x_pts values).

(** A sorted curve whose first two break points share their abscissa. *)
Definition tied_x : list R := [1; 1; 2].
Definition tied_y : list R := [0; 1 / 2; 1].

(** Two rasters on the grid of the small run whose first sample is
    [+inf], flagged by neither file. *)
Definition example_depth_inf : dataset :=
  {| width := 2; height := 2; transform := example_transform;
     band := fun k => nth k [PInf; Fin 1; Fin 0; Fin 2] NaN;
     nodata := fun _ => false;
     bilinear := fun _ _ _ => NaN |}.

Definition example_velocity_inf : dataset :=
  {| width := 2; height := 2; transform := example_transform;
     band := fun k => nth k [PInf; Fin 1; Fin 2; Fin 1] NaN;
     nodata := fun _ => false;
     bilinear := fun _ _ _ => NaN |}.

(* ================================================================== *)
(** * Properties *)

(** ** Floats *)

Lemma Rltb_true (x y : R) : Rltb x y = true <-> x < y.
Proof. unfold Rltb; destruct (Rlt_dec x y); split; intros; auto; discriminate. Qed.

Lemma Rltb_false (x y : R) : Rltb x y = false <-> y <= x.
Proof.
  unfold Rltb; destruct (Rlt_dec x y); split; intros; auto; try discriminate; lra.
Qed.

Lemma Reqb_true (x y : R) : Reqb x y = true <-> x = y.
Proof. unfold Reqb; destruct (Req_dec_T x y); split; intros; auto; discriminate. Qed.

Lemma Reqb_false (x y : R) : Reqb x y = false <-> x <> y.
Proof.
  unfold Reqb; destruct (Req_dec_T x y); split; intros; auto; try discriminate.
  contradiction.
Qed.

Lemma flt_nan_r (t : float) : flt t NaN = false.
Proof. destruct t; reflexivity. Qed.

Lemma fgt_nan_l (t : float) : fgt NaN t = false.
Proof. apply flt_nan_r. Qed.

Lemma fmul_nan_r (t : float) : fmul t NaN = NaN.
Proof. destruct t; reflexivity. Qed.

Lemma fdiv_fin (x y : R) : y <> 0 -> fdiv (Fin x) (Fin y) = Fin (x / y).
Proof. intros Hy; simpl; destruct (Req_dec_T y 0); [contradiction | reflexivity]. Qed.

(** ** Python indexing *)

Lemma getitem_nonneg {A} (l : list A) (i : nat) (dflt : A) :
  (i < length l)%nat -> getitem l (Z.of_nat i) = ret (nth i l dflt).
Proof.
  intros Hi; unfold getitem.
  destruct (Z.ltb_spec (Z.of_nat i) 0); [lia |].
  destruct (Z.leb_spec 0 (Z.of_nat i)); [| lia].
  destruct (Z.ltb_spec (Z.of_nat i) (Z.of_nat (length l))); [| lia].
  simpl; rewrite Nat2Z.id.
  destruct (nth_error l i) eqn:E.
  - now rewrite (nth_error_nth _ _ dflt E).
  - apply nth_error_None in E; lia.
Qed.

Lemma getitem_neg {A} (l : list A) (k : nat) (dflt : A) :
  (0 < k <= length l)%nat ->
  getitem l (- Z.of_nat k) = ret (nth (length l - k) l dflt).
Proof.
  intros Hk; unfold getitem.
  destruct (Z.ltb_spec (- Z.of_nat k) 0); [| lia].
  destruct (Z.leb_spec 0 (Z.of_nat (length l) + - Z.of_nat k)); [| lia].
  destruct (Z.ltb_spec (Z.of_nat (length l) + - Z.of_nat k) (Z.of_nat (length l)));
    [| lia].
  simpl.
  replace (Z.to_nat (Z.of_nat (length l) + - Z.of_nat k)) with (length l - k)%nat
    by lia.
  destruct (nth_error l (length l - k)) eqn:E.
  - now rewrite (nth_error_nth _ _ dflt E).
  - apply nth_error_None in E; lia.
Qed.

(** ** Boolean-mask assignment *)

Lemma assign_select_map {A B} (g f : A -> B) (p : A -> bool) (arr : list A) :
  Numpy.assign (map g arr) (map p arr) (map f (Numpy.select arr (map p arr)))
  = map (fun x => if p x then f x else g x) arr.
Proof.
  induction arr as [| x arr IH]; simpl; [reflexivity |].
  destruct (p x); simpl; now rewrite IH.
Qed.

Lemma any_map_false {A} (p : A -> bool) (arr : list A) :
  Numpy.any (map p arr) = false -> forall x, In x arr -> p x = false.
Proof.
  unfold Numpy.any; induction arr as [| y arr IH]; simpl; [tauto |].
  intros H x [-> | Hx].
  - now apply orb_false_iff in H.
  - apply orb_false_iff in H; now apply IH.
Qed.

(** Whether or not the guard [np.any(mask)] holds, the guarded
    assignment leaves the same array. *)
Lemma guarded_assign {A B} (g f : A -> B) (p : A -> bool) (arr : list A) :
  (if Numpy.any (map p arr)
   then Numpy.assign (map g arr) (map p arr)
          (map f (Numpy.select arr (map p arr)))
   else map g arr)
  = map (fun x => if p x then f x else g x) arr.
Proof.
  destruct (Numpy.any (map p arr)) eqn:E.
  - apply assign_select_map.
  - apply map_ext_in; intros x Hx.
    now rewrite (any_map_false p arr E x Hx).
Qed.

(** ** [piecewise_linear], cell by cell *)

Lemma bind_ret {A B} (x : A) (k : A -> exc B) : bind (ret x) k = k x.
Proof. reflexivity. Qed.

Lemma if_ret {A} (t : bool) (x y : A) :
  (if t then ret x else ret y) = ret (if t then x else y).
Proof. now destruct t. Qed.

Lemma getitem_0 (l : list R) : (1 <= length l)%nat -> getitem l 0 = ret (nth 0 l 0).
Proof. intros H; exact (getitem_nonneg l 0 0 H). Qed.

Lemma getitem_1 (l : list R) : (2 <= length l)%nat -> getitem l 1 = ret (nth 1 l 0).
Proof. intros H; exact (getitem_nonneg l 1 0 H). Qed.

Lemma getitem_m1 (l : list R) :
  (1 <= length l)%nat -> getitem l (-1) = ret (nth (length l - 1) l 0).
Proof. intros H; apply (getitem_neg l 1 0); lia. Qed.

Lemma getitem_m2 (l : list R) :
  (2 <= length l)%nat -> getitem l (-2) = ret (nth (length l - 2) l 0).
Proof. intros H; apply (getitem_neg l 2 0); lia. Qed.

(** With two break points or more nothing raises, and every cell of the
    result is [si_cell] of the cell of the input. *)
Lemma piecewise_linear_cells (values : ndarray) (x_pts y_pts : list R) :
  (2 <= length x_pts)%nat -> length y_pts = length x_pts ->
  piecewise_linear values x_pts y_pts
  = ret {| shape := shape values;
           cells := map (si_cell x_pts y_pts) (cells values) |}.
Proof.
  intros Hn Hlen.
  unfold piecewise_linear, Numpy.interp.
  destruct (Nat.eqb_spec (length x_pts) 0); [lia |].
  destruct (Nat.eqb_spec (length y_pts) (length x_pts)); [| lia].
  destruct (Nat.eqb_spec (length x_pts) 1); [lia |].
  cbv [negb]. rewrite bind_ret.
  rewrite (getitem_0 x_pts), bind_ret by lia.
  rewrite (getitem_1 y_pts), bind_ret by lia.
  rewrite (getitem_0 y_pts), bind_ret by lia.
  rewrite (getitem_1 x_pts), bind_ret by lia.
  rewrite if_ret, bind_ret.
  rewrite (guarded_assign
             (Numpy.interp_cell x_pts y_pts (hd 0 y_pts) (last y_pts 0))).
  rewrite (getitem_m1 x_pts), bind_ret by lia.
  rewrite (getitem_m1 y_pts), bind_ret by lia.
  rewrite (getitem_m2 y_pts), bind_ret by lia.
  rewrite (getitem_m2 x_pts), bind_ret by lia.
  rewrite if_ret, bind_ret.
  rewrite guarded_assign.
  unfold ret; do 2 f_equal.
  apply map_ext; intros v.
  unfold si_cell, slope. rewrite Hlen. reflexivity.
Qed.

(** ** Ascending break points and the search of [np.interp] *)

Lemma last_nth (l : list R) : last l 0 = nth (length l - 1) l 0.
Proof.
  induction l as [| x [| y l] IH]; try reflexivity.
  change (last (x :: y :: l) 0) with (last (y :: l) 0).
  rewrite IH; simpl; now rewrite Nat.sub_0_r.
Qed.

Lemma hd_nth (l : list R) : hd 0 l = nth 0 l 0.
Proof. now destruct l. Qed.

Lemma ascending_tail (x : R) (xs : list R) : ascending (x :: xs) -> ascending xs.
Proof. destruct xs; simpl; tauto. Qed.

Lemma ascending_head_lt (x : R) (xs : list R) (j : nat) :
  ascending (x :: xs) -> (j < length xs)%nat -> x < nth j xs 0.
Proof.
  revert x j; induction xs as [| y xs IH]; intros x j Hasc Hj; simpl in Hj; [lia |].
  destruct Hasc as [Hxy Hasc].
  destruct j as [| j]; simpl; [assumption |].
  apply Rlt_trans with y; [assumption |].
  apply IH; [assumption | lia].
Qed.

Lemma ascending_nth_lt (xs : list R) (i j : nat) :
  ascending xs -> (i < j < length xs)%nat -> nth i xs 0 < nth j xs 0.
Proof.
  revert i j; induction xs as [| x xs IH]; intros i j Hasc Hij; simpl in Hij; [lia |].
  destruct j as [| j]; [lia |].
  destruct i as [| i]; simpl.
  - apply ascending_head_lt; [assumption | lia].
  - apply IH; [now apply ascending_tail in Hasc | lia].
Qed.

Lemma ascending_nth_le (xs : list R) (i j : nat) :
  ascending xs -> (i <= j < length xs)%nat -> nth i xs 0 <= nth j xs 0.
Proof.
  intros Hasc Hij.
  destruct (Nat.eq_dec i j) as [-> | Hne]; [lra |].
  left; apply ascending_nth_lt; [assumption | lia].
Qed.

(** The loop stops at an index [j] with [arr[j] <= key], and with
    [key < arr[j+1]] unless [j] is the last index. *)
Lemma linear_search_spec (key x0 : R) (arr_tl : list R) :
  x0 <= key ->
  let j := Numpy.linear_search key arr_tl in
  (j < length (x0 :: arr_tl))%nat /\
  nth j (x0 :: arr_tl) 0 <= key /\
  ((S j < length (x0 :: arr_tl))%nat -> key < nth (S j) (x0 :: arr_tl) 0).
Proof.
  revert x0; induction arr_tl as [| y tl IH]; intros x0 Hx0; simpl.
  - repeat split; [lia | assumption | lia].
  - destruct (Rle_dec y key) as [Hy | Hy].
    + destruct (IH y Hy) as (Hj & Hle & Hlt).
      repeat split; [simpl in Hj; lia | exact Hle |].
      intros HS; apply Hlt; simpl in *; lia.
    + repeat split; [lia | assumption | intros _; lra].
Qed.

Lemma nondecreasing_tail (x : R) (xs : list R) :
  nondecreasing (x :: xs) -> nondecreasing xs.
Proof. destruct xs; simpl; tauto. Qed.

Lemma nondecreasing_nth_le (xs : list R) (i j : nat) :
  nondecreasing xs -> (i <= j < length xs)%nat -> nth i xs 0 <= nth j xs 0.
Proof.
  revert i j; induction xs as [| x xs IH]; intros i j Hs Hij; simpl in Hij; [lia |].
  destruct j as [| j].
  - assert (i = 0%nat) as -> by lia. lra.
  - destruct i as [| i].
    + apply Rle_trans with (nth 0 xs 0).
      * destruct xs as [| y xs]; [simpl in Hij; lia | simpl; apply Hs].
      * apply IH; [now apply nondecreasing_tail in Hs | lia].
    + simpl; apply IH; [now apply nondecreasing_tail in Hs | lia].
Qed.

Lemma ascending_nondecreasing (xs : list R) : ascending xs -> nondecreasing xs.
Proof.
  induction xs as [| x [| y xs] IH]; simpl; try tauto.
  intros [Hxy Hasc]; split; [lra | now apply IH].
Qed.

(** On a sorted array the index that a search has to return is
    determined: whatever finds a [j] with [arr[j] <= key], and with
    [key < arr[j+1]] unless [j] is the last index, finds the index of
    the loop. *)
Lemma search_determined (key x0 : R) (arr_tl : list R) (j : nat) :
  nondecreasing (x0 :: arr_tl) -> x0 <= key ->
  (j < length (x0 :: arr_tl))%nat ->
  nth j (x0 :: arr_tl) 0 <= key ->
  ((S j < length (x0 :: arr_tl))%nat -> key < nth (S j) (x0 :: arr_tl) 0) ->
  j = Numpy.linear_search key arr_tl.
Proof.
  intros Hs Hx0 Hj Hlo Hhi.
  destruct (linear_search_spec key x0 arr_tl Hx0) as (Hj' & Hlo' & Hhi').
  set (j' := Numpy.linear_search key arr_tl) in *.
  destruct (Nat.lt_trichotomy j j') as [Hlt | [Heq | Hgt]]; [| assumption |].
  - assert (nth (S j) (x0 :: arr_tl) 0 <= nth j' (x0 :: arr_tl) 0)
      by (apply nondecreasing_nth_le; [assumption | lia]).
    assert (key < nth (S j) (x0 :: arr_tl) 0) by (apply Hhi; lia).
    lra.
  - assert (nth (S j') (x0 :: arr_tl) 0 <= nth j (x0 :: arr_tl) 0)
      by (apply nondecreasing_nth_le; [assumption | lia]).
    assert (key < nth (S j') (x0 :: arr_tl) 0) by (apply Hhi'; lia).
    lra.
Qed.

(** On ascending break points the segment of a value is unique: a
    bracketing pair is the one the search finds, or the one before it
    when the value sits on the break point they share. *)
Lemma bracket_unique (xs : list R) (key : R) (i j : nat) :
  ascending xs ->
  (S i < length xs)%nat -> nth i xs 0 <= key <= nth (S i) xs 0 ->
  (j < length xs)%nat -> nth j xs 0 <= key ->
  ((S j < length xs)%nat -> key < nth (S j) xs 0) ->
  i = j \/ (S i = j /\ key = nth j xs 0).
Proof.
  intros Hasc Hi [Hlo Hhi] Hj Hjlo Hjhi.
  destruct (Nat.lt_trichotomy i j) as [Hlt | [Heq | Hgt]].
  - right.
    assert (Hle : nth (S i) xs 0 <= nth j xs 0)
      by (apply ascending_nth_le; [assumption | lia]).
    destruct (Nat.eq_dec (S i) j) as [E | Hne].
    + split; [assumption |]. subst j; lra.
    + assert (nth (S i) xs 0 < nth j xs 0)
        by (apply ascending_nth_lt; [assumption | lia]).
      lra.
  - now left.
  - assert (Hle : nth (S j) xs 0 <= nth i xs 0)
      by (apply ascending_nth_le; [assumption | lia]).
    assert (key < nth (S j) xs 0) by (apply Hjhi; lia).
    lra.
Qed.

Lemma binary_search_in_range (xs : list R) (v : R) :
  nth 0 xs 0 <= v <= last xs 0 ->
  Numpy.binary_search (Fin v) xs = Numpy.Index (Numpy.linear_search v (tl xs)).
Proof.
  intros [Hlo Hhi]; unfold Numpy.binary_search, fgt, flt.
  rewrite hd_nth.
  rewrite (proj2 (Rltb_false (last xs 0) v)) by assumption.
  now rewrite (proj2 (Rltb_false v (nth 0 xs 0))) by assumption.
Qed.

(** [np.interp] on a finite value inside the domain of the curve. *)
Lemma interp_cell_in_range (xs ys : list R) (lval rval v : R) :
  (2 <= length xs)%nat -> nth 0 xs 0 <= v <= last xs 0 ->
  let j := Numpy.linear_search v (tl xs) in
  Numpy.interp_cell xs ys lval rval (Fin v)
  = if (j =? length xs - 1)%nat then Fin (nth j ys 0)
    else if Reqb (nth j xs 0) v then Fin (nth j ys 0)
    else Fin (line_through (nth j xs 0) (nth j ys 0)
                (nth (S j) xs 0) (nth (S j) ys 0) v).
Proof.
  intros Hn Hv j.
  unfold Numpy.interp_cell.
  rewrite binary_search_in_range by assumption.
  fold j. cbv [isnan].
  destruct (Nat.eqb_spec j (length xs - 1)) as [Hj | Hj]; [reflexivity |].
  cbv [feq]. destruct (Reqb (nth j xs 0) v) eqn:Heq; [reflexivity |].
  apply Reqb_false in Heq.
  destruct xs as [| x0 tl0]; [simpl in Hn; lia |].
  destruct (linear_search_spec v x0 tl0 (proj1 Hv)) as (Hjn & Hlo & Hhi).
  change (Numpy.linear_search v tl0) with j in Hjn, Hlo, Hhi.
  assert (HS : (S j < length (x0 :: tl0))%nat) by (simpl in *; lia).
  specialize (Hhi HS).
  set (xj := nth j (x0 :: tl0) 0) in *.
  set (xj1 := nth (S j) (x0 :: tl0) 0) in *.
  cbv [fsub fneg fadd].
  rewrite fdiv_fin by lra.
  cbv [fmul fadd isnan].
  unfold line_through; f_equal; field; lra.
Qed.

Lemma si_cell_in_range (xs ys : list R) (v : R) :
  (2 <= length xs)%nat -> nth 0 xs 0 <= v <= last xs 0 ->
  si_cell xs ys (Fin v)
  = Numpy.interp_cell xs ys (hd 0 ys) (last ys 0) (Fin v).
Proof.
  intros Hn [Hlo Hhi]; unfold si_cell, fgt, flt.
  rewrite last_nth in Hhi.
  rewrite (proj2 (Rltb_false _ v)) by assumption.
  now rewrite (proj2 (Rltb_false v _)) by assumption.
Qed.

(** One cell: on ascending break points, a value of the domain is
    bracketed by two neighbouring break points, the cell takes the value
    of the line through every such pair, and at a break point it takes
    the ordinate of the break point. *)
Lemma si_cell_interpolates (xs ys : list R) (v : R) :
  ascending xs -> (2 <= length xs)%nat ->
  nth 0 xs 0 <= v <= last xs 0 ->
  (exists i, (S i < length xs)%nat /\ nth i xs 0 <= v <= nth (S i) xs 0) /\
  (forall i, (S i < length xs)%nat -> nth i xs 0 <= v <= nth (S i) xs 0 ->
     si_cell xs ys (Fin v)
     = Fin (line_through (nth i xs 0) (nth i ys 0)
              (nth (S i) xs 0) (nth (S i) ys 0) v)) /\
  (forall i, (i < length xs)%nat -> v = nth i xs 0 ->
     si_cell xs ys (Fin v) = Fin (nth i ys 0)).
Proof.
  intros Hasc Hn Hv.
  rewrite si_cell_in_range by assumption.
  rewrite interp_cell_in_range by assumption.
  set (j := Numpy.linear_search v (tl xs)).
  assert (Hspec : (j < length xs)%nat /\ nth j xs 0 <= v /\
                  ((S j < length xs)%nat -> v < nth (S j) xs 0)).
  { destruct xs as [| x0 tl0]; [simpl in Hn; lia |].
    exact (linear_search_spec v x0 tl0 (proj1 Hv)). }
  destruct Hspec as (Hjn & Hlo & Hhi).
  assert (Hlast : (j = length xs - 1)%nat -> v = nth j xs 0).
  { intros E. destruct Hv as [_ Hv]. rewrite last_nth, <- E in Hv. lra. }
  split; [| split].
  - destruct (Nat.eq_dec j (length xs - 1)) as [E | E].
    + exists (j - 1)%nat. replace (S (j - 1)) with j by lia.
      split; [lia |]. split; [| rewrite <- (Hlast E); lra].
      rewrite (Hlast E); apply ascending_nth_le; [assumption | lia].
    + exists j. assert (HS : (S j < length xs)%nat) by lia.
      specialize (Hhi HS). split; [assumption | lra].
  - intros i Hi Hbr.
    destruct (bracket_unique xs v i j Hasc Hi Hbr Hjn Hlo Hhi) as [-> | [HS Hvj]].
    + destruct (Nat.eqb_spec j (length xs - 1)) as [E | E]; [lia |].
      destruct (Reqb (nth j xs 0) v) eqn:Heq; [| reflexivity].
      apply Reqb_true in Heq.
      assert (nth j xs 0 < nth (S j) xs 0)
        by (apply ascending_nth_lt; [assumption | lia]).
      unfold line_through; f_equal; rewrite <- Heq; field; lra.
    + assert (Hval : (if (j =? length xs - 1)%nat then Fin (nth j ys 0)
                      else if Reqb (nth j xs 0) v then Fin (nth j ys 0)
                      else Fin (line_through (nth j xs 0) (nth j ys 0)
                                  (nth (S j) xs 0) (nth (S j) ys 0) v))
                     = Fin (nth j ys 0)).
      { destruct (j =? length xs - 1)%nat; [reflexivity |].
        now rewrite (proj2 (Reqb_true (nth j xs 0) v)) by (symmetry; assumption). }
      rewrite Hval, <- HS.
      assert (nth i xs 0 < nth (S i) xs 0)
        by (apply ascending_nth_lt; [assumption | lia]).
      unfold line_through; f_equal.
      rewrite Hvj, <- HS; field; lra.
  - intros i Hi Hvi.
    assert (i = j).
    { destruct (Nat.lt_trichotomy i j) as [Hlt | [Heq | Hgt]]; [| assumption |].
      - assert (nth i xs 0 < nth j xs 0)
          by (apply ascending_nth_lt; [assumption | lia]).
        lra.
      - assert (nth (S j) xs 0 <= nth i xs 0)
          by (apply ascending_nth_le; [assumption | lia]).
        assert (v < nth (S j) xs 0) by (apply Hhi; lia).
        lra. }
    subst i.
    destruct (j =? length xs - 1)%nat; [reflexivity |].
    now rewrite (proj2 (Reqb_true (nth j xs 0) v)) by (symmetry; assumption).
Qed.

(** ** The interpolator *)

(** C1.  On a curve with strictly ascending break points (two or more)
    and a non-missing cell [v] with [x_min <= v <= x_max],
    [piecewise_linear] returns: some pair of neighbouring break points
    brackets [v]; for every bracketing pair the cell of the result is
    the value at [v] of the straight line through the pair; and where
    [v] is the abscissa of a break point the cell is exactly the
    ordinate of that break point. *)
Theorem piecewise_linear_interpolates
  (values : ndarray) (x_pts y_pts : list R) (k : nat) (v : R) :
  ascending x_pts -> (2 <= length x_pts)%nat ->
  length y_pts = length x_pts ->
  nth_error (cells values) k = Some (Fin v) ->
  nth 0 x_pts 0 <= v <= last x_pts 0 ->
  exists si,
    piecewise_linear values x_pts y_pts = ret si /\
    (exists i, (S i < length x_pts)%nat /\
               nth i x_pts 0 <= v <= nth (S i) x_pts 0) /\
    (forall i, (S i < length x_pts)%nat ->
       nth i x_pts 0 <= v <= nth (S i) x_pts 0 ->
       nth_error (cells si) k
       = Some (Fin (line_through (nth i x_pts 0) (nth i y_pts 0)
                      (nth (S i) x_pts 0) (nth (S i) y_pts 0) v))) /\
    (forall i, (i < length x_pts)%nat -> v = nth i x_pts 0 ->
       nth_error (cells si) k = Some (Fin (nth i y_pts 0))).
Proof.
  intros Hasc Hn Hlen Hk Hv.
  eexists; split; [apply piecewise_linear_cells; assumption |].
  destruct (si_cell_interpolates x_pts y_pts v Hasc Hn Hv) as (Hex & Hline & Hpt).
  cbn [cells].
  split; [exact Hex | split].
  - intros i Hi Hbr.
    rewrite (map_nth_error _ _ _ Hk); f_equal; now apply Hline.
  - intros i Hi Hvi.
    rewrite (map_nth_error _ _ _ Hk); f_equal; now apply Hpt.
Qed.

Lemma slope_fin (x0 y0 x1 y1 : R) :
  x0 <> x1 -> slope x0 y0 x1 y1 = Fin ((y1 - y0) / (x1 - x0)).
Proof.
  intros Hx; unfold slope; cbv [fsub fneg fadd].
  rewrite fdiv_fin by lra. reflexivity.
Qed.

(** A float that compares below (above) a finite number is finite or
    the infinity of that side. *)
Lemma flt_fin_inv (v : float) (x : R) :
  flt v (Fin x) = true -> (exists r, v = Fin r /\ r < x) \/ v = NInf.
Proof.
  destruct v as [r | | |]; simpl; intros H; try discriminate; [left | now right].
  exists r; split; [reflexivity | now apply Rltb_true].
Qed.

Lemma fgt_fin_inv (v : float) (x : R) :
  fgt v (Fin x) = true -> (exists r, v = Fin r /\ x < r) \/ v = PInf.
Proof.
  destruct v as [r | | |]; simpl; intros H; try discriminate; [left | now right].
  exists r; split; [reflexivity | now apply Rltb_true].
Qed.

(** Outside the domain of an ascending curve the cell is the linear
    extrapolation of the first, resp. the last, segment. *)
Lemma si_cell_extrapolates (x_pts y_pts : list R) (v : float) :
  ascending x_pts -> (2 <= length x_pts)%nat ->
  let n := length x_pts in
  let x0 := nth 0 x_pts 0 in
  let y0 := nth 0 y_pts 0 in
  let x_last := nth (n - 1) x_pts 0 in
  let y_last := nth (n - 1) y_pts 0 in
  let slope_left := (nth 1 y_pts 0 - y0) / (nth 1 x_pts 0 - x0) in
  let slope_right :=
    (y_last - nth (n - 2) y_pts 0) / (x_last - nth (n - 2) x_pts 0) in
  (flt v (Fin x0) = true ->
     si_cell x_pts y_pts v
     = fadd (Fin y0) (fmul (Fin slope_left) (fsub v (Fin x0)))) /\
  (fgt v (Fin x_last) = true ->
     si_cell x_pts y_pts v
     = fadd (Fin y_last) (fmul (Fin slope_right) (fsub v (Fin x_last)))).
Proof.
  intros Hasc Hn n x0 y0 x_last y_last slope_left slope_right.
  assert (H01 : x0 < nth 1 x_pts 0)
    by (apply ascending_nth_lt; [assumption | lia]).
  assert (Hpl : nth (n - 2) x_pts 0 < x_last)
    by (apply ascending_nth_lt; [assumption | subst n; lia]).
  assert (H0l : x0 < x_last)
    by (apply ascending_nth_lt; [assumption | subst n; lia]).
  split; intros Hcmp; unfold si_cell; fold n x0 y0 x_last y_last.
  - assert (Hnot : fgt v (Fin x_last) = false).
    { destruct (flt_fin_inv v x0 Hcmp) as [(r & -> & Hr) | ->]; [| reflexivity].
      apply Rltb_false; lra. }
    rewrite Hnot, Hcmp, slope_fin by lra. reflexivity.
  - rewrite Hcmp, slope_fin by lra. reflexivity.
Qed.

(** C2.  On a curve with strictly ascending break points (two or more),
    a non-missing cell [v] outside the domain is extrapolated linearly:
    below [x_min] the result is [y0 + slope_left * (v - x0)] with the
    slope of the first segment, above [x_max] it is
    [y_last + slope_right * (v - x_last)] with the slope of the last
    segment.  The sums and products are those of the floats, so that
    the statement covers an infinite [v] (a cell that compares below or
    above a number is not [nan]); for a finite [v] they are the sums
    and products of the real numbers, which the last two parts spell
    out. *)
Theorem piecewise_linear_extrapolates
  (values : ndarray) (x_pts y_pts : list R) (k : nat) (v : float) :
  ascending x_pts -> (2 <= length x_pts)%nat ->
  length y_pts = length x_pts ->
  nth_error (cells values) k = Some v ->
  let n := length x_pts in
  let x0 := nth 0 x_pts 0 in
  let y0 := nth 0 y_pts 0 in
  let x_last := nth (n - 1) x_pts 0 in
  let y_last := nth (n - 1) y_pts 0 in
  let slope_left := (nth 1 y_pts 0 - y0) / (nth 1 x_pts 0 - x0) in
  let slope_right :=
    (y_last - nth (n - 2) y_pts 0) / (x_last - nth (n - 2) x_pts 0) in
  exists si,
    piecewise_linear values x_pts y_pts = ret si /\
    (flt v (Fin x0) = true ->
       nth_error (cells si) k
       = Some (fadd (Fin y0) (fmul (Fin slope_left) (fsub v (Fin x0))))) /\
    (fgt v (Fin x_last) = true ->
       nth_error (cells si) k
       = Some (fadd (Fin y_last)
                 (fmul (Fin slope_right) (fsub v (Fin x_last))))) /\
    (forall r, v = Fin r -> r < x0 ->
       nth_error (cells si) k = Some (Fin (y0 + slope_left * (r - x0)))) /\
    (forall r, v = Fin r -> x_last < r ->
       nth_error (cells si) k
       = Some (Fin (y_last + slope_right * (r - x_last)))).
Proof.
  intros Hasc Hn Hlen Hk n x0 y0 x_last y_last slope_left slope_right.
  eexists; split; [apply piecewise_linear_cells; assumption |].
  cbn [cells]. rewrite (map_nth_error _ _ _ Hk).
  destruct (si_cell_extrapolates x_pts y_pts v Hasc Hn) as [Hleft Hright].
  fold n x0 y0 x_last y_last slope_left slope_right in Hleft, Hright.
  split; [| split; [| split]].
  - intros Hcmp; f_equal; now apply Hleft.
  - intros Hcmp; f_equal; now apply Hright.
  - intros r -> Hr; f_equal.
    rewrite Hleft by (now apply Rltb_true). reflexivity.
  - intros r -> Hr; f_equal.
    rewrite Hright by (now apply Rltb_true). reflexivity.
Qed.

(** ** Evaluating floats on given numbers *)

Ltac decide_reals :=
  repeat match goal with
    | |- context [Rlt_dec ?x ?y] => destruct (Rlt_dec x y); try lra
    | |- context [Rle_dec ?x ?y] => destruct (Rle_dec x y); try lra
    | |- context [Req_dec_T ?x ?y] => destruct (Req_dec_T x y); try lra
    end.

Ltac eval_float :=
  cbv [si_cell slope Numpy.interp_cell Numpy.interp_cell1
       Numpy.binary_search Numpy.linear_search
       fgt flt feq fadd fsub fmul fdiv fneg fsqrt isnan isinf signed_inf
       Rltb Reqb
       nth hd tl last length Nat.sub Nat.eqb andb orb negb];
  decide_reals.

Ltac solve_real := first [lra | field; lra | field].

(** C3.  No clamping to [0, 1]: on the example curve the six input
    values give exactly -0.5, 0, 0.25, 0.5, 0.75 and 1.5; the first and
    the last, extrapolated, lie outside [0, 1] and are returned as they
    are. *)
Theorem example_not_clamped :
  piecewise_linear example_values example_x example_y
  = ret {| shape := [6%nat];
           cells := [Fin (- (1 / 2)); Fin 0; Fin (1 / 4); Fin (1 / 2);
                     Fin (3 / 4); Fin (3 / 2)] |}.
Proof.
  rewrite piecewise_linear_cells by (simpl; lia).
  unfold example_values, example_x, example_y; cbn [shape cells map].
  do 2 f_equal.
  repeat (f_equal; [eval_float; f_equal; solve_real |]).
  f_equal; eval_float; f_equal; solve_real.
Qed.

(** A point of a segment is a convex combination of its two ends. *)
Lemma line_through_convex (x0 y0 x1 y1 v : R) :
  x0 < x1 -> x0 <= v <= x1 ->
  let t := (v - x0) / (x1 - x0) in
  0 <= t <= 1 /\
  line_through x0 y0 x1 y1 v = (1 - t) * y0 + t * y1 /\
  Rmin y0 y1 <= line_through x0 y0 x1 y1 v <= Rmax y0 y1.
Proof.
  intros Hx Hv t.
  assert (Ht : t * (x1 - x0) = v - x0) by (unfold t; field; lra).
  assert (Ht01 : 0 <= t <= 1) by (split; nra).
  assert (Hline : line_through x0 y0 x1 y1 v = (1 - t) * y0 + t * y1)
    by (unfold line_through, t; field; lra).
  split; [assumption | split; [assumption |]].
  rewrite Hline; unfold Rmin, Rmax.
  destruct (Rle_dec y0 y1); split; nra.
Qed.

(** C10, on exact values.  Without any clamping, on a curve with
    ascending break points whose ordinates all lie in [0, 1], a
    non-missing cell inside the domain gets an SI in [0, 1]: the SI is
    a convex combination of the ordinates of two bracketing break
    points and so lies between the smaller and the larger of them.
    Hence, rounding apart, only a cell outside the domain can get an SI
    outside [0, 1]. *)
Theorem in_range_si_in_unit_interval
  (values : ndarray) (x_pts y_pts : list R) (k : nat) (v : R) :
  ascending x_pts -> (2 <= length x_pts)%nat ->
  length y_pts = length x_pts ->
  (forall y, In y y_pts -> 0 <= y <= 1) ->
  nth_error (cells values) k = Some (Fin v) ->
  nth 0 x_pts 0 <= v <= last x_pts 0 ->
  exists si r,
    piecewise_linear values x_pts y_pts = ret si /\
    nth_error (cells si) k = Some (Fin r) /\
    0 <= r <= 1 /\
    exists i t,
      (S i < length x_pts)%nat /\
      nth i x_pts 0 <= v <= nth (S i) x_pts 0 /\
      0 <= t <= 1 /\
      r = (1 - t) * nth i y_pts 0 + t * nth (S i) y_pts 0 /\
      Rmin (nth i y_pts 0) (nth (S i) y_pts 0) <= r
      <= Rmax (nth i y_pts 0) (nth (S i) y_pts 0).
Proof.
  intros Hasc Hn Hlen Hy Hk Hv.
  destruct (si_cell_interpolates x_pts y_pts v Hasc Hn Hv)
    as ((i & Hi & Hbr) & Hline & _).
  assert (Hlt : nth i x_pts 0 < nth (S i) x_pts 0)
    by (apply ascending_nth_lt; [assumption | lia]).
  destruct (line_through_convex (nth i x_pts 0) (nth i y_pts 0)
              (nth (S i) x_pts 0) (nth (S i) y_pts 0) v Hlt Hbr)
    as (Ht & Hconv & Hmin & Hmax).
  assert (Hyi : 0 <= nth i y_pts 0 <= 1) by (apply Hy, nth_In; lia).
  assert (HyS : 0 <= nth (S i) y_pts 0 <= 1) by (apply Hy, nth_In; lia).
  eexists; eexists; split; [apply piecewise_linear_cells; assumption |].
  cbn [cells]. rewrite (map_nth_error _ _ _ Hk), (Hline i Hi Hbr).
  split; [reflexivity |]. split.
  - revert Hmin Hmax; unfold Rmin, Rmax.
    destruct (Rle_dec (nth i y_pts 0) (nth (S i) y_pts 0)); lra.
  - exists i, ((v - nth i x_pts 0) / (nth (S i) x_pts 0 - nth i x_pts 0)).
    repeat split; try assumption; try apply Ht; try apply Hbr.
Qed.

(** ** The same on doubles *)

(** On the worked example no operation rounds, and the doubles are the
    numbers of the specification. *)
Lemma double_example_not_clamped :
  Double.piecewise_linear Double.example_values Double.example_x
    Double.example_y
  = ret Double.example_si.
Proof. vm_compute. reflexivity. Qed.

(** C10 as stated fails on the doubles of the machine.  The curve through
    (0.7, 0.1) and (3.51, 1) has its ordinates in [0, 1] and ascending
    abscissas, and the cell 3.5099999999999993, the double just below
    3.51, lies inside the domain; its SI is 1.0000000000000002, the
    double just above 1.  [np.interp] computes slope * (x - x_0) + y_0,
    three roundings, and not a convex combination. *)
Lemma rounding_leaves_unit_interval :
  Double.ascending Double.rounding_x = true /\
  forallb (Double.within PrimFloat.zero PrimFloat.one) Double.rounding_y
  = true /\
  Double.within (hd PrimFloat.zero Double.rounding_x)
    (last Double.rounding_x PrimFloat.zero) Double.rounding_v = true /\
  Double.piecewise_linear [Double.rounding_v] Double.rounding_x
    Double.rounding_y
  = ret [Double.above_one] /\
  PrimFloat.ltb PrimFloat.one Double.above_one = true.
Proof. vm_compute. repeat split. Qed.

(** ** The run as a whole *)

Lemma nth_error_tabulate {A} (g : nat -> A) (n k : nat) :
  (k < n)%nat -> nth_error (map g (seq 0 n)) k = Some (g k).
Proof.
  intros Hk. apply map_nth_error.
  rewrite nth_error_seq.
  destruct (Nat.ltb_spec k n); [reflexivity | lia].
Qed.

Lemma nth_error_combine {A B} (l : list A) (l' : list B) (k : nat) (x : A) (y : B) :
  nth_error l k = Some x -> nth_error l' k = Some y ->
  nth_error (combine l l') k = Some (x, y).
Proof.
  revert l l'; induction k as [| k IH]; intros [| u l] [| u' l'] Hx Hy;
    simpl in *; try discriminate.
  - now inversion Hx; inversion Hy.
  - now apply IH.
Qed.

Lemma read_suitability_csv_lengths (csv : list csv_row) (hp sh vp sv : list R) :
  read_suitability_csv csv = ret (hp, sh, vp, sv) ->
  length sh = length hp /\ length sv = length vp.
Proof.
  unfold read_suitability_csv, ret; intros H; inversion H; subst.
  now rewrite !length_map.
Qed.

Lemma read_velocity_shape (dep_src vel_src : dataset) :
  ma_shape (read_velocity dep_src vel_src) = [height dep_src; width dep_src].
Proof.
  unfold read_velocity.
  destruct (Nat.eqb_spec (width vel_src) (width dep_src)) as [Hw | Hw];
    [| reflexivity].
  destruct (Nat.eqb_spec (height vel_src) (height dep_src)) as [Hh | Hh];
    [| reflexivity].
  destruct (Affine.eqb (transform vel_src) (transform dep_src));
    [| reflexivity].
  simpl; now rewrite Hw, Hh.
Qed.

(** With two break points or more on both curves the run raises
    nothing, and its results are these. *)
Lemma calculate_habitat_runs (dep_src vel_src : dataset) (csv : list csv_row)
  (threshold : float) (h_pts si_h_pts v_pts si_v_pts : list R) :
  read_suitability_csv csv = ret (h_pts, si_h_pts, v_pts, si_v_pts) ->
  (2 <= length h_pts)%nat -> (2 <= length v_pts)%nat ->
  let grid := [height dep_src; width dep_src] in
  let depth := Numpy.filled (Rasterio.read_masked dep_src) NaN in
  let velocity := Numpy.filled (read_velocity dep_src vel_src) NaN in
  let si_h := map (si_cell h_pts si_h_pts) (cells depth) in
  let si_v := map (si_cell v_pts si_v_pts) (cells velocity) in
  let chsi :=
    {| shape := grid;
       cells := map fsqrt
                  (map (fun '(x, y) => fmul x y) (combine si_h si_v)) |} in
  let n := Numpy.count_nonzero (Numpy.greater chsi threshold) in
  let area :=
    Rabs (Affine.a (transform dep_src) * Affine.e (transform dep_src)) in
  calculate_habitat dep_src vel_src csv threshold
  = ret {| SI_depth := {| shape := grid; cells := si_h |};
           SI_velocity := {| shape := grid; cells := si_v |};
           cHSI := chsi;
           usable := Numpy.greater chsi threshold;
           n_pixels := n;
           pixel_area_m2 := area;
           total_area_m2 := INR n * area |}.
Proof.
  intros Hcsv Hh Hv grid depth velocity si_h si_v chsi n area.
  destruct (read_suitability_csv_lengths _ _ _ _ _ Hcsv) as [Hlh Hlv].
  unfold calculate_habitat. rewrite Hcsv, bind_ret.
  rewrite (piecewise_linear_cells _ h_pts si_h_pts Hh Hlh), bind_ret.
  rewrite (piecewise_linear_cells _ v_pts si_v_pts Hv Hlv), bind_ret.
  unfold Numpy.multiply; cbn [shape cells].
  change (shape (Numpy.filled (read_velocity dep_src vel_src) NaN))
    with (ma_shape (read_velocity dep_src vel_src)).
  rewrite read_velocity_shape.
  change (shape (Numpy.filled (Rasterio.read_masked dep_src) NaN)) with grid.
  destruct (list_eq_dec Nat.eq_dec grid [height dep_src; width dep_src])
    as [_ | Hne]; [| now elim Hne].
  rewrite bind_ret. reflexivity.
Qed.

(** ** Cells of the rasters that enter the interpolator *)

Lemma filled_nth (m : marray) (fill : float) (k : nat) (d0 : float) (b0 : bool) :
  nth_error (ma_data m) k = Some d0 -> nth_error (ma_mask m) k = Some b0 ->
  nth_error (cells (Numpy.filled m fill)) k = Some (if b0 then fill else d0).
Proof.
  intros Hd Hb; unfold Numpy.filled; cbn [cells].
  now rewrite (map_nth_error _ _ _ (nth_error_combine _ _ _ _ _ Hd Hb)).
Qed.

Lemma depth_cell (dep_src : dataset) (k : nat) :
  (k < height dep_src * width dep_src)%nat ->
  nth_error (cells (Numpy.filled (Rasterio.read_masked dep_src) NaN)) k
  = Some (if nodata dep_src k then NaN else band dep_src k).
Proof.
  intros Hk; apply filled_nth; unfold Rasterio.read_masked; cbn [ma_data ma_mask];
    now apply nth_error_tabulate.
Qed.

Lemma Affine_eqb_true (s t : Affine.t) : Affine.eqb s t = true <-> s = t.
Proof.
  unfold Affine.eqb; rewrite !andb_true_iff, !Reqb_true.
  destruct s, t; cbn. split.
  - intros [[[[[-> ->] ->] ->] ->] ->]; reflexivity.
  - intros E; inversion E; tauto.
Qed.

(** The test of [read_velocity], read as a proposition. *)
Lemma grids_differ_false (dep_src vel_src : dataset) :
  negb (width vel_src =? width dep_src)%nat
  || negb (height vel_src =? height dep_src)%nat
  || negb (Affine.eqb (transform vel_src) (transform dep_src)) = false
  <-> same_grid dep_src vel_src.
Proof.
  unfold same_grid.
  rewrite !orb_false_iff, !negb_false_iff, !Nat.eqb_eq, Affine_eqb_true.
  tauto.
Qed.

(** A cell of the velocity raster as it enters the interpolator.  On one
    grid it is the stored sample, masked where the file flags it or
    where it is not finite.  Otherwise it is the sample of the unmasked
    read, masked only where it is not finite. *)
Lemma velocity_cell (dep_src vel_src : dataset) (k : nat) :
  (k < height dep_src * width dep_src)%nat ->
  let velocity := read_velocity dep_src vel_src in
  (same_grid dep_src vel_src ->
     nth_error (ma_data velocity) k = Some (band vel_src k) /\
     nth_error (ma_mask velocity) k
     = Some (isnan (band vel_src k) || isinf (band vel_src k)
             || nodata vel_src k)) /\
  (~ same_grid dep_src vel_src ->
     let sample :=
       if ((height dep_src =? height vel_src)
           && (width dep_src =? width vel_src))%nat
       then band vel_src k
       else bilinear vel_src (height dep_src) (width dep_src) k in
     nth_error (ma_data velocity) k = Some sample /\
     nth_error (ma_mask velocity) k = Some (isnan sample || isinf sample)).
Proof.
  intros Hk velocity; subst velocity; unfold read_velocity.
  destruct (negb (width vel_src =? width dep_src)%nat
            || negb (height vel_src =? height dep_src)%nat
            || negb (Affine.eqb (transform vel_src) (transform dep_src)))
    eqn:Htest.
  - split; intros Hgrid.
    + apply grids_differ_false in Hgrid; congruence.
    + unfold Numpy.masked_invalid, Rasterio.read_resampled;
        cbn [ma_data ma_mask cells shape].
      destruct ((height dep_src =? height vel_src)
                && (width dep_src =? width vel_src))%nat;
        (split; [| apply (map_nth_error (fun d => isnan d || isinf d))]);
        now apply nth_error_tabulate.
  - apply grids_differ_false in Htest.
    split; intros Hgrid; [| contradiction].
    destruct Htest as (Hw & Hh & _).
    unfold Numpy.masked_invalid, Rasterio.read_masked; cbn [ma_data ma_mask].
    rewrite Hw, Hh.
    split; [now apply nth_error_tabulate |].
    rewrite (map_nth_error _ _ _
               (nth_error_combine _ _ k _ _
                  (nth_error_tabulate (band vel_src) _ k Hk)
                  (nth_error_tabulate (nodata vel_src) _ k Hk))).
    reflexivity.
Qed.

Lemma si_cell_nan (x_pts y_pts : list R) : si_cell x_pts y_pts NaN = NaN.
Proof. reflexivity. Qed.

Lemma same_grid_dec (dep_src vel_src : dataset) :
  same_grid dep_src vel_src \/ ~ same_grid dep_src vel_src.
Proof.
  destruct (negb (width vel_src =? width dep_src)%nat
            || negb (height vel_src =? height dep_src)%nat
            || negb (Affine.eqb (transform vel_src) (transform dep_src)))
    eqn:Htest.
  - right; intros Hgrid; apply grids_differ_false in Hgrid; congruence.
  - left; now apply grids_differ_false.
Qed.

Lemma velocity_cell_exists (dep_src vel_src : dataset) (k : nat) :
  (k < height dep_src * width dep_src)%nat ->
  exists d0 b0,
    nth_error (ma_data (read_velocity dep_src vel_src)) k = Some d0 /\
    nth_error (ma_mask (read_velocity dep_src vel_src)) k = Some b0 /\
    (d0 = NaN -> b0 = true).
Proof.
  intros Hk.
  destruct (velocity_cell dep_src vel_src k Hk) as [Hsame Hdiff].
  destruct (same_grid_dec dep_src vel_src) as [Hgrid | Hgrid].
  - destruct (Hsame Hgrid) as [Hd Hb].
    do 2 eexists; split; [exact Hd | split; [exact Hb |]].
    now intros ->.
  - destruct (Hdiff Hgrid) as [Hd Hb].
    do 2 eexists; split; [exact Hd | split; [exact Hb |]].
    now intros ->.
Qed.

Lemma chsi_cell (si_h si_v : list float) (k : nat) (x y : float) :
  nth_error si_h k = Some x -> nth_error si_v k = Some y ->
  nth_error (map fsqrt (map (fun '(x, y) => fmul x y) (combine si_h si_v))) k
  = Some (fsqrt (fmul x y)).
Proof.
  intros Hx Hy.
  apply map_nth_error.
  now rewrite (map_nth_error _ _ _ (nth_error_combine _ _ _ _ _ Hx Hy)).
Qed.

Lemma count_nonzero_greater_le (t : float) (l : list float) :
  (Numpy.count_nonzero (map (fun c => fgt c t) l)
   <= length (filter (fun c => negb (isnan c)) l))%nat.
Proof.
  unfold Numpy.count_nonzero.
  induction l as [| c l IH]; simpl; [lia |].
  destruct c; simpl; try (destruct (fgt _ t); simpl; lia).
  rewrite fgt_nan_l. exact IH.
Qed.

(** C4, as the script has it.  Missing cells propagate end to end on
    curves of two break points or more: the run raises nothing and, for
    every cell [k] of the grid and every threshold:
    - if the cell is missing in the depth raster, SI-h is missing there;
    - if the cell is missing in the velocity raster that enters the
      interpolator, SI-v is missing there; on one grid, that is every
      cell missing in the velocity file;
    - if SI-h or SI-v is missing there, so is cHSI;
    - if cHSI is missing there, the cell is not usable.
    The usable pixels are counted among the cells that are not missing. *)
Theorem missing_cells_propagate
  (dep_src vel_src : dataset) (csv : list csv_row) (threshold : float)
  (h_pts si_h_pts v_pts si_v_pts : list R) :
  read_suitability_csv csv = ret (h_pts, si_h_pts, v_pts, si_v_pts) ->
  (2 <= length h_pts)%nat -> (2 <= length v_pts)%nat ->
  exists out,
    calculate_habitat dep_src vel_src csv threshold = ret out /\
    (forall k, (k < height dep_src * width dep_src)%nat ->
       let velocity := read_velocity dep_src vel_src in
       (missing (band dep_src) (nodata dep_src) k ->
          nth_error (cells (SI_depth out)) k = Some NaN) /\
       (nth_error (ma_mask velocity) k = Some true \/
        nth_error (ma_data velocity) k = Some NaN ->
          nth_error (cells (SI_velocity out)) k = Some NaN) /\
       (same_grid dep_src vel_src ->
        missing (band vel_src) (nodata vel_src) k ->
          nth_error (cells (SI_velocity out)) k = Some NaN) /\
       (nth_error (cells (SI_depth out)) k = Some NaN \/
        nth_error (cells (SI_velocity out)) k = Some NaN ->
          nth_error (cells (cHSI out)) k = Some NaN) /\
       (nth_error (cells (cHSI out)) k = Some NaN ->
          nth_error (usable out) k = Some false)) /\
    n_pixels out = Numpy.count_nonzero (usable out) /\
    (n_pixels out
     <= length (filter (fun c => negb (isnan c)) (cells (cHSI out))))%nat.
Proof.
  intros Hcsv Hh Hv.
  eexists; split;
    [apply (calculate_habitat_runs _ _ _ _ _ _ _ _ Hcsv Hh Hv) |].
  cbn [SI_depth SI_velocity cHSI usable n_pixels cells].
  split; [| split; [reflexivity | apply count_nonzero_greater_le]].
  intros k Hk.
  pose proof (depth_cell dep_src k Hk) as Hdep.
  destruct (velocity_cell_exists dep_src vel_src k Hk) as (d0 & b0 & Hd & Hb & Hnan).
  pose proof (filled_nth _ NaN k d0 b0 Hd Hb) as Hvel.
  pose proof (map_nth_error (si_cell h_pts si_h_pts) _ _ Hdep) as Hsih.
  pose proof (map_nth_error (si_cell v_pts si_v_pts) _ _ Hvel) as Hsiv.
  pose proof (chsi_cell _ _ k _ _ Hsih Hsiv) as Hchsi.
  assert (Hvmiss :
            nth_error (ma_mask (read_velocity dep_src vel_src)) k = Some true \/
            nth_error (ma_data (read_velocity dep_src vel_src)) k = Some NaN ->
            nth_error (map (si_cell v_pts si_v_pts)
                         (cells (Numpy.filled (read_velocity dep_src vel_src)
                                   NaN))) k
            = Some NaN).
  { intros Hmiss. rewrite Hsiv. f_equal.
    assert (b0 = true) as ->.
    { destruct Hmiss as [Hm | Hm].
      - congruence.
      - apply Hnan; congruence. }
    apply si_cell_nan. }
  split; [| split; [exact Hvmiss | split; [| split]]].
  - intros [Hflag | Hsample]; rewrite Hsih; f_equal.
    + now rewrite Hflag.
    + rewrite Hsample. now destruct (nodata dep_src k).
  - intros Hgrid Hmiss. apply Hvmiss.
    destruct (velocity_cell dep_src vel_src k Hk) as [Hsame _].
    destruct (Hsame Hgrid) as [Hd' Hb'].
    destruct Hmiss as [Hflag | Hsample].
    + left. rewrite Hb', Hflag.
      now rewrite orb_true_r.
    + right. now rewrite Hd', Hsample.
  - intros Hmiss. rewrite Hchsi. f_equal.
    destruct Hmiss as [Hm | Hm].
    + rewrite Hsih in Hm. injection Hm as Hm. rewrite Hm. reflexivity.
    + rewrite Hsiv in Hm. injection Hm as Hm. rewrite Hm, fmul_nan_r.
      reflexivity.
  - intros Hmiss. unfold Numpy.greater; cbn [cells].
    rewrite (map_nth_error _ _ _ Hmiss), fgt_nan_l. reflexivity.
Qed.

Ltac invert_binds :=
  unfold bind, ret, raise;
  repeat match goal with
    | |- context [match ?c with inl _ => _ | inr _ => _ end] =>
        destruct c; try discriminate
    end.

Lemma piecewise_linear_shape (values si : ndarray) (x_pts y_pts : list R) :
  piecewise_linear values x_pts y_pts = ret si -> shape si = shape values.
Proof.
  unfold piecewise_linear. invert_binds.
  intros H; inversion H; reflexivity.
Qed.

(** The threshold enters a run at its last step only: a run that returns
    for one threshold returns for every threshold, with the same three
    rasters and the statistics of step 5. *)
Lemma calculate_habitat_inv (dep_src vel_src : dataset) (csv : list csv_row)
  (threshold : float) (out : habitat) :
  calculate_habitat dep_src vel_src csv threshold = ret out ->
  exists h_pts si_h_pts v_pts si_v_pts,
    read_suitability_csv csv = ret (h_pts, si_h_pts, v_pts, si_v_pts) /\
    piecewise_linear (Numpy.filled (Rasterio.read_masked dep_src) NaN)
      h_pts si_h_pts = ret (SI_depth out) /\
    piecewise_linear (Numpy.filled (read_velocity dep_src vel_src) NaN)
      v_pts si_v_pts = ret (SI_velocity out) /\
    shape (SI_depth out) = shape (SI_velocity out) /\
    shape (cHSI out) = shape (SI_depth out) /\
    cells (cHSI out)
    = map fsqrt (map (fun '(x, y) => fmul x y)
                   (combine (cells (SI_depth out)) (cells (SI_velocity out)))) /\
    forall t,
      calculate_habitat dep_src vel_src csv t
      = ret {| SI_depth := SI_depth out;
               SI_velocity := SI_velocity out;
               cHSI := cHSI out;
               usable := Numpy.greater (cHSI out) t;
               n_pixels := Numpy.count_nonzero (Numpy.greater (cHSI out) t);
               pixel_area_m2 :=
                 Rabs (Affine.a (transform dep_src)
                       * Affine.e (transform dep_src));
               total_area_m2 :=
                 INR (Numpy.count_nonzero (Numpy.greater (cHSI out) t))
                 * Rabs (Affine.a (transform dep_src)
                         * Affine.e (transform dep_src)) |}.
Proof.
  intros H. unfold calculate_habitat in H.
  destruct (read_suitability_csv csv)
    as [ex | [[[h_pts si_h_pts] v_pts] si_v_pts]] eqn:Hcsv; [discriminate |].
  rewrite bind_ret in H.
  destruct (piecewise_linear _ h_pts si_h_pts) as [ex | si_h] eqn:Hsih;
    [discriminate |].
  rewrite bind_ret in H.
  destruct (piecewise_linear _ v_pts si_v_pts) as [ex | si_v] eqn:Hsiv;
    [discriminate |].
  rewrite bind_ret in H.
  unfold Numpy.multiply in H.
  destruct (list_eq_dec Nat.eq_dec (shape si_h) (shape si_v)) as [Hshape | Hshape];
    [| discriminate].
  rewrite bind_ret in H. unfold statistics, ret in H.
  inversion H; subst out; clear H; cbn [SI_depth SI_velocity cHSI cells shape].
  exists h_pts, si_h_pts, v_pts, si_v_pts.
  repeat split; try assumption; try reflexivity.
  intros t. unfold calculate_habitat.
  rewrite Hcsv, bind_ret, Hsih, bind_ret, Hsiv, bind_ret.
  unfold Numpy.multiply.
  destruct (list_eq_dec Nat.eq_dec (shape si_h) (shape si_v));
    [reflexivity | contradiction].
Qed.

(** ** The compositor *)

Lemma fsqrt_fmul_negative (x y : R) :
  x * y < 0 -> fsqrt (fmul (Fin x) (Fin y)) = NaN.
Proof. intros H; simpl. destruct (Rlt_dec (x * y) 0); [reflexivity | lra]. Qed.

Lemma fsqrt_fmul_nonnegative (x y : R) :
  0 <= x * y -> fsqrt (fmul (Fin x) (Fin y)) = Fin (sqrt (x * y)).
Proof. intros H; simpl. destruct (Rlt_dec (x * y) 0); [lra | reflexivity]. Qed.

(** C5.  Once both SI rasters are there the run goes through, whatever
    their signs, and cHSI is, cell by cell, the square root of the
    product of SI-h and SI-v; where the two are finite and their
    product is negative the cell of cHSI is [nan], and where the
    product is not negative it is its square root. *)
Theorem composite_is_sqrt_of_product
  (dep_src vel_src : dataset) (csv : list csv_row) (threshold : float)
  (h_pts si_h_pts v_pts si_v_pts : list R) (si_h si_v : ndarray) :
  read_suitability_csv csv = ret (h_pts, si_h_pts, v_pts, si_v_pts) ->
  piecewise_linear (Numpy.filled (Rasterio.read_masked dep_src) NaN)
    h_pts si_h_pts = ret si_h ->
  piecewise_linear (Numpy.filled (read_velocity dep_src vel_src) NaN)
    v_pts si_v_pts = ret si_v ->
  exists out,
    calculate_habitat dep_src vel_src csv threshold = ret out /\
    SI_depth out = si_h /\ SI_velocity out = si_v /\
    shape (cHSI out) = [height dep_src; width dep_src] /\
    forall k x y,
      nth_error (cells si_h) k = Some x ->
      nth_error (cells si_v) k = Some y ->
      nth_error (cells (cHSI out)) k = Some (fsqrt (fmul x y)) /\
      (forall p q, x = Fin p -> y = Fin q -> p * q < 0 ->
         nth_error (cells (cHSI out)) k = Some NaN) /\
      (forall p q, x = Fin p -> y = Fin q -> 0 <= p * q ->
         nth_error (cells (cHSI out)) k = Some (Fin (sqrt (p * q)))).
Proof.
  intros Hcsv Hsih Hsiv.
  pose proof (piecewise_linear_shape _ _ _ _ Hsih) as Hshh.
  pose proof (piecewise_linear_shape _ _ _ _ Hsiv) as Hshv.
  change (shape (Numpy.filled (Rasterio.read_masked dep_src) NaN))
    with [height dep_src; width dep_src] in Hshh.
  change (shape (Numpy.filled (read_velocity dep_src vel_src) NaN))
    with (ma_shape (read_velocity dep_src vel_src)) in Hshv.
  rewrite read_velocity_shape in Hshv.
  unfold calculate_habitat.
  rewrite Hcsv, bind_ret, Hsih, bind_ret, Hsiv, bind_ret.
  unfold Numpy.multiply.
  destruct (list_eq_dec Nat.eq_dec (shape si_h) (shape si_v)) as [_ | Hne];
    [| congruence].
  rewrite bind_ret. unfold statistics.
  eexists; split; [reflexivity |].
  cbn [SI_depth SI_velocity cHSI Numpy.sqrt shape cells].
  split; [reflexivity | split; [reflexivity | split; [assumption |]]].
  intros k x y Hx Hy.
  rewrite (chsi_cell _ _ _ _ _ Hx Hy).
  split; [reflexivity | split].
  - intros p q -> -> Hneg. f_equal. now apply fsqrt_fmul_negative.
  - intros p q -> -> Hpos. f_equal. now apply fsqrt_fmul_nonnegative.
Qed.

(** ** The statistics *)

Lemma fgt_exceeds (c t : float) : fgt c t = true <-> exceeds c t.
Proof.
  split.
  - destruct c, t; simpl; intros H; try discriminate; try constructor.
    now apply Rltb_true.
  - intros H; destruct H; simpl; try reflexivity.
    now apply Rltb_true.
Qed.

Lemma count_nonzero_map {A} (p : A -> bool) (l : list A) :
  Numpy.count_nonzero (map p l) = length (filter p l).
Proof.
  unfold Numpy.count_nonzero.
  induction l as [| x l IH]; simpl; [reflexivity |].
  destruct (p x); simpl; now rewrite IH.
Qed.

(** C6.  The statistics of a run: the usable pixels are the cells of
    cHSI that exceed the threshold (strictly: neither a cell equal to
    the threshold nor a missing cell exceeds it), one pixel covers
    [abs(transform[0] * transform[4])], pixel width times pixel height,
    and the total area is the number of usable pixels times the area of
    one pixel.  The last part says the same of step 5 on any cHSI
    raster and any transform. *)
Theorem summary_statistics
  (dep_src vel_src : dataset) (csv : list csv_row) (threshold : float)
  (out : habitat) :
  calculate_habitat dep_src vel_src csv threshold = ret out ->
  n_pixels out
  = length (filter (fun c => fgt c threshold) (cells (cHSI out))) /\
  (forall c, fgt c threshold = true <-> exceeds c threshold) /\
  ~ exceeds threshold threshold /\
  ~ exceeds NaN threshold /\
  pixel_area_m2 out
  = Rabs (Affine.a (transform dep_src) * Affine.e (transform dep_src)) /\
  total_area_m2 out = INR (n_pixels out) * pixel_area_m2 out /\
  forall (chsi : ndarray) (tr : Affine.t),
    let n := length (filter (fun c => fgt c threshold) (cells chsi)) in
    let area := Rabs (Affine.a tr * Affine.e tr) in
    statistics chsi threshold tr
    = (map (fun c => fgt c threshold) (cells chsi), n, area, INR n * area).
Proof.
  intros Hrun.
  destruct (calculate_habitat_inv _ _ _ _ _ Hrun) as (? & ? & ? & ? & _ & _ & _ & _ & _ & _ & Hall).
  rewrite (Hall threshold) in Hrun.
  unfold ret in Hrun; inversion Hrun as [Hout]; clear Hrun.
  cbn [n_pixels pixel_area_m2 total_area_m2 cHSI].
  rewrite <- Hout at 1.
  split; [apply count_nonzero_map |].
  split; [intros c; apply fgt_exceeds |].
  split; [intros H; inversion H; lra |].
  split; [intros H; inversion H |].
  split; [reflexivity | split; [reflexivity |]].
  intros chsi tr; unfold statistics, Numpy.greater.
  now rewrite count_nonzero_map.
Qed.

Lemma fgt_antitone (c t1 t2 : float) :
  flt t1 t2 = true -> fgt c t2 = true -> fgt c t1 = true.
Proof.
  destruct c, t1, t2; simpl; intros H1 H2; try discriminate; try reflexivity.
  apply Rltb_true in H1, H2. apply Rltb_true. lra.
Qed.

Lemma count_nonzero_antitone (l : list float) (t1 t2 : float) :
  flt t1 t2 = true ->
  (Numpy.count_nonzero (map (fun c => fgt c t2) l)
   <= Numpy.count_nonzero (map (fun c => fgt c t1) l))%nat.
Proof.
  intros Ht; unfold Numpy.count_nonzero.
  induction l as [| c l IH]; simpl; [lia |].
  destruct (fgt c t2) eqn:E2.
  - rewrite (fgt_antitone c t1 t2 Ht E2). simpl; lia.
  - destruct (fgt c t1); simpl; lia.
Qed.

(** C9.  The number of usable pixels is antitone in the threshold: for
    one cHSI raster and two thresholds [t1 < t2], the count for [t1] is
    at least the count for [t2]; so for two runs on the same inputs. *)
Theorem usable_count_antitone
  (dep_src vel_src : dataset) (csv : list csv_row) (t1 t2 : float)
  (out1 out2 : habitat) :
  flt t1 t2 = true ->
  calculate_habitat dep_src vel_src csv t1 = ret out1 ->
  calculate_habitat dep_src vel_src csv t2 = ret out2 ->
  cHSI out1 = cHSI out2 /\
  (n_pixels out2 <= n_pixels out1)%nat /\
  forall (chsi : ndarray) (tr : Affine.t),
    let '(_, n1, _, _) := statistics chsi t1 tr in
    let '(_, n2, _, _) := statistics chsi t2 tr in
    (n2 <= n1)%nat.
Proof.
  intros Ht Hrun1 Hrun2.
  destruct (calculate_habitat_inv _ _ _ _ _ Hrun1) as (? & ? & ? & ? & _ & _ & _ & _ & _ & _ & Hall).
  rewrite (Hall t1) in Hrun1. rewrite (Hall t2) in Hrun2.
  unfold ret in Hrun1, Hrun2.
  inversion Hrun1 as [Hout1]; inversion Hrun2 as [Hout2].
  cbn [cHSI n_pixels].
  split; [reflexivity |].
  split; [now apply count_nonzero_antitone |].
  intros chsi tr; unfold statistics. now apply count_nonzero_antitone.
Qed.

(** ** Curves with fewer than two break points *)

Lemma insert_length (p : R * R) (l : list (R * R)) :
  length (Pandas.insert p l) = S (length l).
Proof.
  induction l as [| q l IH]; simpl; [reflexivity |].
  destruct (Rle_dec (fst p) (fst q)); simpl; [reflexivity | now rewrite IH].
Qed.

Lemma sort_values_length (l : list (R * R)) :
  length (Pandas.sort_values l) = length l.
Proof.
  induction l as [| p l IH]; simpl; [reflexivity |].
  now rewrite insert_length, IH.
Qed.

Lemma insert_head (p : R * R) (l : list (R * R)) :
  hd p (Pandas.insert p l) = p \/ hd p (Pandas.insert p l) = hd p l /\ l <> [].
Proof.
  destruct l as [| q l]; simpl; [now left |].
  destruct (Rle_dec (fst p) (fst q)); simpl; [now left | right].
  split; [reflexivity | discriminate].
Qed.

Lemma insert_nondecreasing (p : R * R) (l : list (R * R)) :
  nondecreasing (map fst l) -> nondecreasing (map fst (Pandas.insert p l)).
Proof.
  induction l as [| q l IH]; intros Hs; [exact I |].
  cbn [Pandas.insert]. destruct (Rle_dec (fst p) (fst q)) as [Hle | Hgt].
  - cbn [map]. split; [exact Hle | exact Hs].
  - pose proof (IH (nondecreasing_tail _ _ Hs)) as IH'.
    cbn [map]. destruct (Pandas.insert p l) as [| r l'] eqn:E.
    + exact I.
    + split; [| exact IH'].
      destruct (insert_head p l) as [Hp | [Hh Hne]]; rewrite E in *; simpl in *.
      * subst r; lra.
      * destruct l as [| r' l0]; [now elim Hne |].
        simpl in Hh; subst r'. apply Hs.
Qed.

(** [sort_values] sorts: the abscissas come out in ascending order,
    equal ones side by side. *)
Lemma sort_values_nondecreasing (l : list (R * R)) :
  nondecreasing (map fst (Pandas.sort_values l)).
Proof.
  induction l as [| p l IH]; [exact I |].
  now apply insert_nondecreasing.
Qed.

(** The curves that come out of the loader are sorted by [x]. *)
Lemma read_suitability_csv_sorted (csv : list csv_row) (hp sh vp sv : list R) :
  read_suitability_csv csv = ret (hp, sh, vp, sv) ->
  nondecreasing hp /\ nondecreasing vp.
Proof.
  unfold read_suitability_csv, ret; intros H; inversion H; subst.
  split; apply sort_values_nondecreasing.
Qed.

Lemma any_map_true {A} (p : A -> bool) (arr : list A) (x : A) :
  In x arr -> p x = true -> Numpy.any (map p arr) = true.
Proof.
  intros Hin Hp; unfold Numpy.any.
  apply existsb_exists. exists true; split; [| reflexivity].
  rewrite <- Hp. now apply in_map.
Qed.

(** No break point at all: [np.interp] refuses the empty curve. *)
Lemma piecewise_linear_no_point (values : ndarray) (y_pts : list R) :
  piecewise_linear values [] y_pts = raise ValueError.
Proof. reflexivity. Qed.

(** One break point: the first cell off the point makes the script index
    the second break point, which is not there.  With every cell on the
    point, or [nan], nothing is indexed and [np.interp] has filled every
    cell, [nan] cells too, with the ordinate of the point. *)
Lemma piecewise_linear_one_point (values : ndarray) (x y : R) :
  piecewise_linear values [x] [y]
  = if Numpy.any (map (fun c => flt c (Fin x)) (cells values))
       || Numpy.any (map (fun c => fgt c (Fin x)) (cells values))
    then raise IndexError
    else ret {| shape := shape values;
                cells := map (fun _ => Fin y) (cells values) |}.
Proof.
  unfold piecewise_linear, Numpy.interp.
  cbn [length Nat.eqb negb hd last].
  rewrite bind_ret.
  change (getitem [x] 0) with (ret (A := R) x).
  change (getitem [y] 1) with (raise (A := R) IndexError).
  change (getitem [x] (-1)) with (ret (A := R) x).
  change (getitem [y] (-1)) with (ret (A := R) y).
  change (getitem [y] (-2)) with (raise (A := R) IndexError).
  rewrite bind_ret.
  destruct (Numpy.any (map (fun c => flt c (Fin x)) (cells values))) eqn:Hl;
    [reflexivity |].
  rewrite bind_ret, bind_ret.
  destruct (Numpy.any (map (fun c => fgt c (Fin x)) (cells values))) eqn:Hr;
    [reflexivity |].
  cbn [orb]. rewrite bind_ret. unfold ret; do 2 f_equal.
  apply map_ext_in; intros c Hc. unfold Numpy.interp_cell1.
  rewrite (any_map_false _ _ Hl c Hc).
  now rewrite (any_map_false _ _ Hr c Hc).
Qed.

(** C8, as the script has it.  Loading the curves never fails: for every
    file it returns, for each variable, as many break points as complete
    rows remain, also when fewer than two remain.  A curve that short
    fails later, if at all, in the interpolation: with [ValueError] when
    no break point remains, with [IndexError] when one remains and some
    cell lies below or above it; with one break point and no such cell
    the interpolation returns the ordinate of the point in every cell. *)
Theorem short_curve_fails_late (raw : list csv_row) :
  (exists h_pts si_h_pts v_pts si_v_pts,
     read_suitability_csv raw = ret (h_pts, si_h_pts, v_pts, si_v_pts) /\
     length h_pts = length (depth_points raw) /\
     length si_h_pts = length (depth_points raw) /\
     length v_pts = length (velocity_points raw) /\
     length si_v_pts = length (velocity_points raw)) /\
  (forall values y_pts,
     piecewise_linear values [] y_pts = raise ValueError) /\
  (forall values x y c,
     In c (cells values) ->
     flt c (Fin x) = true \/ fgt c (Fin x) = true ->
     piecewise_linear values [x] [y] = raise IndexError) /\
  (forall values x y,
     (forall c, In c (cells values) ->
        flt c (Fin x) = false /\ fgt c (Fin x) = false) ->
     piecewise_linear values [x] [y]
     = ret {| shape := shape values;
              cells := map (fun _ => Fin y) (cells values) |}).
Proof.
  split; [| split; [| split]].
  - unfold read_suitability_csv, depth_points, velocity_points.
    do 4 eexists; split; [reflexivity |].
    now rewrite !length_map, !sort_values_length.
  - intros; apply piecewise_linear_no_point.
  - intros values x y c Hc Hoff.
    rewrite piecewise_linear_one_point.
    destruct Hoff as [Hoff | Hoff].
    + now rewrite (any_map_true (fun c => flt c (Fin x)) _ c Hc Hoff).
    + rewrite (any_map_true (fun c => fgt c (Fin x)) _ c Hc Hoff).
      now rewrite orb_true_r.
  - intros values x y Hon.
    rewrite piecewise_linear_one_point.
    assert (Hl : Numpy.any (map (fun c => flt c (Fin x)) (cells values)) = false).
    { unfold Numpy.any. apply not_true_is_false. intros E.
      apply existsb_exists in E. destruct E as (b0 & Hin & ->).
      apply in_map_iff in Hin. destruct Hin as (c & Hc & Hin).
      destruct (Hon c Hin); congruence. }
    assert (Hr : Numpy.any (map (fun c => fgt c (Fin x)) (cells values)) = false).
    { unfold Numpy.any. apply not_true_is_false. intros E.
      apply existsb_exists in E. destruct E as (b0 & Hin & ->).
      apply in_map_iff in Hin. destruct Hin as (c & Hc & Hin).
      destruct (Hon c Hin); congruence. }
    rewrite Hl, Hr. reflexivity.
Qed.

(** C8 as stated fails: a file with one complete row is loaded, not
    rejected. *)
Lemma single_row_is_loaded :
  (length (depth_points single_row_csv) < 2)%nat /\
  read_suitability_csv single_row_csv = ret ([1], [1 / 2], [1], [1 / 2]) /\
  ~ (exists ex, read_suitability_csv single_row_csv = raise ex).
Proof.
  split; [simpl; lia |].
  split; [reflexivity |].
  intros [ex H]; discriminate H.
Qed.

(** ** The small run, evaluated *)

Ltac eval_raster_step :=
  cbv [Numpy.filled Numpy.masked_invalid Numpy.greater Numpy.count_nonzero
       Rasterio.read_masked Rasterio.read_resampled read_velocity
       example_depth example_velocity example_shifted_velocity
       example_depth_inf example_velocity_inf
       example_depth_on_point example_velocity_on_point
       example_transform Affine.eqb Affine.a Affine.b Affine.c Affine.d
       Affine.e Affine.f
       width height transform band nodata bilinear
       ma_shape ma_data ma_mask shape cells
       map combine seq filter nth nth_error length
       Nat.mul Nat.add Nat.eqb andb orb negb isnan isinf Reqb];
  decide_reals.

Ltac eval_raster := repeat progress eval_raster_step.

Lemma example_csv_curves :
  read_suitability_csv example_csv
  = ret ([0; 1; 2], [0; 1 / 2; 1], [0; 1; 2; 3], [0; 1 / 2; 1; 0]).
Proof.
  cbv [read_suitability_csv example_csv Pandas.dropna Pandas.sort_values
       Pandas.insert map fst snd col_h col_si_h col_v col_si_v].
  decide_reals. reflexivity.
Qed.

Lemma sqrt_quarter : sqrt (1 / 2 * (1 / 2)) = 1 / 2.
Proof. apply sqrt_square; lra. Qed.

Ltac eval_cells :=
  repeat (apply (f_equal2 cons);
          [eval_float; try reflexivity; f_equal; solve_real |]);
  reflexivity.

Lemma example_depth_cells :
  cells (Numpy.filled (Rasterio.read_masked example_depth) NaN)
  = [Fin 1; Fin (-1); NaN; NaN].
Proof. reflexivity. Qed.

Lemma example_velocity_cells :
  cells (Numpy.filled (read_velocity example_depth example_velocity) NaN)
  = [Fin 1; Fin 1; Fin 2; Fin 1].
Proof. eval_raster. reflexivity. Qed.

Lemma example_si_depth :
  map (si_cell [0; 1; 2] [0; 1 / 2; 1]) [Fin 1; Fin (-1); NaN; NaN]
  = [Fin (1 / 2); Fin (- (1 / 2)); NaN; NaN].
Proof. cbn [map]. eval_cells. Qed.

Lemma example_si_velocity :
  map (si_cell [0; 1; 2; 3] [0; 1 / 2; 1; 0]) [Fin 1; Fin 1; Fin 2; Fin 1]
  = [Fin (1 / 2); Fin (1 / 2); Fin 1; Fin (1 / 2)].
Proof. cbn [map]. eval_cells. Qed.

Lemma example_chsi :
  map fsqrt
    (map (fun '(x, y) => fmul x y)
       (combine [Fin (1 / 2); Fin (- (1 / 2)); NaN; NaN]
          [Fin (1 / 2); Fin (1 / 2); Fin 1; Fin (1 / 2)]))
  = [Fin (1 / 2); NaN; NaN; NaN].
Proof.
  cbn [map combine].
  rewrite fsqrt_fmul_nonnegative, sqrt_quarter by lra.
  rewrite fsqrt_fmul_negative by lra.
  reflexivity.
Qed.

Lemma example_usable :
  map (fun c => fgt c (Fin (2 / 5))) [Fin (1 / 2); NaN; NaN; NaN]
  = [true; false; false; false].
Proof.
  cbn [map]. apply (f_equal2 cons); [| reflexivity].
  apply Rltb_true; lra.
Qed.

Lemma Rabs_pixel : Rabs (10 * -10) = 100.
Proof. unfold Rabs; destruct (Rcase_abs (10 * -10)); lra. Qed.

(** The run on the two rasters of one grid with the threshold 0.4. *)
Lemma example_run :
  calculate_habitat example_depth example_velocity example_csv (Fin (2 / 5))
  = ret example_out.
Proof.
  rewrite (calculate_habitat_runs _ _ _ _ _ _ _ _ example_csv_curves)
    by (simpl; lia).
  cbv zeta.
  rewrite example_depth_cells, example_velocity_cells.
  rewrite example_si_depth, example_si_velocity, example_chsi.
  unfold Numpy.greater; cbn [cells]. rewrite example_usable.
  change (Affine.a (transform example_depth)
          * Affine.e (transform example_depth)) with (10 * -10).
  rewrite Rabs_pixel.
  unfold ret, example_out; do 2 f_equal.
  change (Numpy.count_nonzero [true; false; false; false]) with 1%nat.
  simpl INR; lra.
Qed.

(** ** Grid alignment *)

Lemma example_grids_differ : ~ same_grid example_depth example_shifted_velocity.
Proof.
  intros (_ & _ & Htr).
  apply (f_equal Affine.c) in Htr. cbn in Htr. lra.
Qed.

(** C7, the resampling branch on a velocity raster whose first cell is
    declared as no data.  The grids differ (by the transform alone), so
    the script reads the velocity without a mask: the stored -9999
    enters the interpolator as a velocity, unmasked, and SI-v gets the
    number -4999.5 there, where the cell should be missing.  On one grid
    the read is masked and the same cell is missing ([velocity_cell]). *)
Theorem unmasked_resampling_read :
  ~ same_grid example_depth example_shifted_velocity /\
  missing (band example_shifted_velocity) (nodata example_shifted_velocity) 0 /\
  ma_shape (read_velocity example_depth example_shifted_velocity)
  = [height example_depth; width example_depth] /\
  nth_error (ma_data (read_velocity example_depth example_shifted_velocity)) 0
  = Some (Fin (-9999)) /\
  nth_error (ma_mask (read_velocity example_depth example_shifted_velocity)) 0
  = Some false /\
  exists out,
    calculate_habitat example_depth example_shifted_velocity example_csv
      (Fin (2 / 5)) = ret out /\
    nth_error (cells (SI_velocity out)) 0 = Some (Fin (- (9999 / 2))).
Proof.
  assert (Hk : (0 < height example_depth * width example_depth)%nat)
    by (simpl; lia).
  destruct (velocity_cell example_depth example_shifted_velocity 0 Hk)
    as [_ Hdiff].
  destruct (Hdiff example_grids_differ) as [Hd Hm].
  cbn in Hd, Hm.
  split; [exact example_grids_differ |].
  split; [left; reflexivity |].
  split; [apply read_velocity_shape |].
  split; [exact Hd |]. split; [exact Hm |].
  eexists; split;
    [apply (calculate_habitat_runs _ _ _ _ _ _ _ _ example_csv_curves);
     simpl; lia |].
  cbn [SI_velocity cells].
  rewrite (map_nth_error _ _ _ (filled_nth _ NaN 0 _ _ Hd Hm)).
  f_equal. eval_float. f_equal. solve_real.
Qed.

(** ** Missing cells that do not stay missing *)

Lemma example_on_point_depth_cells :
  cells (Numpy.filled (Rasterio.read_masked example_depth_on_point) NaN)
  = [Fin 1; NaN; Fin 1; Fin 1].
Proof. reflexivity. Qed.

Lemma example_on_point_velocity_cells :
  cells (Numpy.filled
           (read_velocity example_depth_on_point example_velocity_on_point)
           NaN)
  = [Fin 1; Fin 1; Fin 1; Fin 1].
Proof. eval_raster. reflexivity. Qed.

(** The run on the one-row curve file. *)
Lemma example_run_on_point :
  calculate_habitat example_depth_on_point example_velocity_on_point
    single_row_csv (Fin (2 / 5))
  = ret example_out_on_point.
Proof.
  unfold calculate_habitat.
  change (read_suitability_csv single_row_csv)
    with (ret ([1], [1 / 2], [1], [1 / 2])).
  rewrite bind_ret.
  rewrite !piecewise_linear_one_point.
  cbn [shape].
  rewrite example_on_point_depth_cells, example_on_point_velocity_cells.
  cbv [Numpy.any map existsb flt fgt].
  rewrite (proj2 (Rltb_false 1 1)) by lra. cbn [orb].
  rewrite !bind_ret.
  unfold Numpy.multiply, Numpy.filled; cbn [shape cells].
  rewrite read_velocity_shape.
  cbn [Rasterio.read_masked ma_shape example_depth_on_point height width].
  destruct (list_eq_dec Nat.eq_dec [2; 2]%nat [2; 2]%nat) as [_ | Hne];
    [| now elim Hne].
  rewrite bind_ret.
  unfold statistics, Numpy.sqrt, Numpy.greater; cbn [shape cells map combine].
  rewrite fsqrt_fmul_nonnegative, sqrt_quarter by lra.
  cbv [fgt flt]. rewrite (proj2 (Rltb_true (2 / 5) (1 / 2))) by lra.
  change (Affine.a (transform example_depth_on_point)
          * Affine.e (transform example_depth_on_point)) with (10 * -10).
  rewrite Rabs_pixel.
  unfold ret, example_out_on_point; do 2 f_equal.
  change (Numpy.count_nonzero [true; true; true; true]) with 4%nat.
  simpl INR; lra.
Qed.

(** C4 as stated fails, in two ways.
    - With a curve of one break point a missing cell does not stay
      missing: in the run on the one-row curve file the second depth
      cell is declared as no data, [np.interp] fills it like every
      other cell with the ordinate of the single break point, so SI-h
      is 0.5 there, cHSI is 0.5 and the cell is counted as usable: four
      usable pixels, not three.
    - On different grids the velocity raster is read without its mask:
      the first cell of the shifted velocity raster is declared as no
      data and SI-v is the number -4999.5 there. *)
Lemma missing_cell_gets_a_value :
  (missing (band example_depth_on_point) (nodata example_depth_on_point) 1 /\
   calculate_habitat example_depth_on_point example_velocity_on_point
     single_row_csv (Fin (2 / 5))
   = ret example_out_on_point /\
   nth_error (cells (SI_depth example_out_on_point)) 1 = Some (Fin (1 / 2)) /\
   nth_error (cells (cHSI example_out_on_point)) 1 = Some (Fin (1 / 2)) /\
   nth_error (usable example_out_on_point) 1 = Some true /\
   n_pixels example_out_on_point = 4%nat) /\
  (~ same_grid example_depth example_shifted_velocity /\
   missing (band example_shifted_velocity)
     (nodata example_shifted_velocity) 0 /\
   exists out,
     calculate_habitat example_depth example_shifted_velocity example_csv
       (Fin (2 / 5)) = ret out /\
     nth_error (cells (SI_velocity out)) 0 = Some (Fin (- (9999 / 2)))).
Proof.
  split.
  - split; [left; reflexivity |].
    split; [exact example_run_on_point |].
    repeat split.
  - assert (Hk : (0 < height example_depth * width example_depth)%nat)
      by (simpl; lia).
    destruct (velocity_cell example_depth example_shifted_velocity 0 Hk)
      as [_ Hdiff].
    destruct (Hdiff example_grids_differ) as [Hd Hm].
    cbn in Hd, Hm.
    split; [exact example_grids_differ |].
    split; [left; reflexivity |].
    eexists; split;
      [apply (calculate_habitat_runs _ _ _ _ _ _ _ _ example_csv_curves);
       simpl; lia |].
    cbn [SI_velocity cells].
    rewrite (map_nth_error _ _ _ (filled_nth _ NaN 0 _ _ Hd Hm)).
    f_equal. eval_float. f_equal. solve_real.
Qed.

(* ================================================================== *)
(** * The theorems at work on the examples *)

(** Cell 2 of the worked example, 0.5, lies on the first segment. *)
Lemma piecewise_linear_interpolates_witness :
  exists si,
    piecewise_linear example_values example_x example_y = ret si /\
    nth_error (cells si) 2 = Some (Fin (line_through 0 0 1 (1 / 2) (1 / 2))).
Proof.
  assert (Hasc : ascending example_x) by (cbn; lra).
  assert (Hn : (2 <= length example_x)%nat) by (cbn; lia).
  assert (Hlen : length example_y = length example_x) by reflexivity.
  assert (Hk : nth_error (cells example_values) 2 = Some (Fin (1 / 2)))
    by reflexivity.
  assert (Hv : nth 0 example_x 0 <= 1 / 2 <= last example_x 0) by (cbn; lra).
  destruct (piecewise_linear_interpolates example_values example_x example_y
              2 (1 / 2) Hasc Hn Hlen Hk Hv) as (si & Hsi & _ & Hline & _).
  exists si; split; [exact Hsi |].
  apply (Hline 0%nat); cbn; [lia | lra].
Defined.

(** Cells 0 and 5 of the worked example, -1 and 3, lie outside the
    domain. *)
Lemma piecewise_linear_extrapolates_witness :
  exists si,
    piecewise_linear example_values example_x example_y = ret si /\
    nth_error (cells si) 0
    = Some (Fin (0 + (1 / 2 - 0) / (1 - 0) * (-1 - 0))) /\
    nth_error (cells si) 5
    = Some (Fin (1 + (1 - 1 / 2) / (2 - 1) * (3 - 2))).
Proof.
  assert (Hasc : ascending example_x) by (cbn; lra).
  assert (Hn : (2 <= length example_x)%nat) by (cbn; lia).
  assert (Hlen : length example_y = length example_x) by reflexivity.
  destruct (piecewise_linear_extrapolates example_values example_x example_y
              0 (Fin (-1)) Hasc Hn Hlen eq_refl)
    as (si & Hsi & _ & _ & Hleft & _).
  destruct (piecewise_linear_extrapolates example_values example_x example_y
              5 (Fin 3) Hasc Hn Hlen eq_refl)
    as (si' & Hsi' & _ & _ & _ & Hright).
  rewrite Hsi in Hsi'. injection Hsi' as <-.
  exists si; split; [exact Hsi | split].
  - apply (Hleft (-1) eq_refl). cbn; lra.
  - apply (Hright 3 eq_refl). cbn; lra.
Defined.

(** Cell 4 of the worked example, 1.5, lies inside the domain. *)
Lemma in_range_si_in_unit_interval_witness :
  exists si r,
    piecewise_linear example_values example_x example_y = ret si /\
    nth_error (cells si) 4 = Some (Fin r) /\ 0 <= r <= 1.
Proof.
  assert (Hasc : ascending example_x) by (cbn; lra).
  assert (Hn : (2 <= length example_x)%nat) by (cbn; lia).
  assert (Hlen : length example_y = length example_x) by reflexivity.
  assert (Hy : forall y, In y example_y -> 0 <= y <= 1).
  { intros y [<- | [<- | [<- | []]]]; lra. }
  assert (Hv : nth 0 example_x 0 <= 3 / 2 <= last example_x 0) by (cbn; lra).
  destruct (in_range_si_in_unit_interval example_values example_x example_y
              4 (3 / 2) Hasc Hn Hlen Hy eq_refl Hv)
    as (si & r & Hsi & Hr & Hunit & _).
  exists si, r; auto.
Defined.

(** Cell 3 of the small run is declared as no data in the depth
    raster. *)
Lemma missing_cells_propagate_witness :
  exists out,
    calculate_habitat example_depth example_velocity example_csv (Fin (2 / 5))
    = ret out /\
    nth_error (cells (SI_depth out)) 3 = Some NaN /\
    nth_error (cells (cHSI out)) 3 = Some NaN /\
    nth_error (usable out) 3 = Some false.
Proof.
  assert (Hh : (2 <= length [0; 1; 2])%nat) by (cbn; lia).
  assert (Hv : (2 <= length [0; 1; 2; 3])%nat) by (cbn; lia).
  destruct (missing_cells_propagate example_depth example_velocity example_csv
              (Fin (2 / 5)) _ _ _ _ example_csv_curves Hh Hv)
    as (out & Hout & Hcells & _).
  assert (Hk : (3 < height example_depth * width example_depth)%nat)
    by (cbn; lia).
  destruct (Hcells 3%nat Hk) as (Hdep & _ & _ & Hchsi & Husable).
  assert (Hmiss : missing (band example_depth) (nodata example_depth) 3)
    by (left; reflexivity).
  exists out; split; [exact Hout |].
  split; [exact (Hdep Hmiss) |].
  split; [exact (Hchsi (or_introl (Hdep Hmiss))) |].
  exact (Husable (Hchsi (or_introl (Hdep Hmiss)))).
Defined.

(** Cell 1 of the small run has SI-h = -0.5 and SI-v = 0.5. *)
Lemma composite_is_sqrt_of_product_witness :
  exists out,
    calculate_habitat example_depth example_velocity example_csv (Fin (2 / 5))
    = ret out /\
    nth_error (cells (cHSI out)) 1 = Some NaN.
Proof.
  assert (Hh : (2 <= length [0; 1; 2])%nat) by (cbn; lia).
  assert (Hv : (2 <= length [0; 1; 2; 3])%nat) by (cbn; lia).
  pose proof (piecewise_linear_cells
                (Numpy.filled (Rasterio.read_masked example_depth) NaN)
                [0; 1; 2] [0; 1 / 2; 1] Hh eq_refl) as Hsih.
  pose proof (piecewise_linear_cells
                (Numpy.filled (read_velocity example_depth example_velocity) NaN)
                [0; 1; 2; 3] [0; 1 / 2; 1; 0] Hv eq_refl) as Hsiv.
  rewrite example_depth_cells, example_si_depth in Hsih.
  rewrite example_velocity_cells, example_si_velocity in Hsiv.
  destruct (composite_is_sqrt_of_product example_depth example_velocity
              example_csv (Fin (2 / 5)) _ _ _ _ _ _
              example_csv_curves Hsih Hsiv)
    as (out & Hout & _ & _ & _ & Hcells).
  exists out; split; [exact Hout |].
  destruct (Hcells 1%nat (Fin (- (1 / 2))) (Fin (1 / 2)) eq_refl eq_refl)
    as (_ & Hneg & _).
  apply (Hneg (- (1 / 2)) (1 / 2) eq_refl eq_refl). lra.
Defined.

(** The statistics of the small run. *)
Lemma summary_statistics_witness :
  n_pixels example_out
  = length (filter (fun c => fgt c (Fin (2 / 5))) (cells (cHSI example_out))) /\
  pixel_area_m2 example_out
  = Rabs (Affine.a (transform example_depth)
          * Affine.e (transform example_depth)) /\
  total_area_m2 example_out
  = INR (n_pixels example_out) * pixel_area_m2 example_out.
Proof.
  destruct (summary_statistics example_depth example_velocity example_csv
              (Fin (2 / 5)) example_out example_run)
    as (Hn & _ & _ & _ & Harea & Htotal & _).
  repeat split; assumption.
Defined.

(** The small run with the thresholds 0.4 and 0.6. *)
Lemma usable_count_antitone_witness :
  exists out2,
    calculate_habitat example_depth example_velocity example_csv (Fin (3 / 5))
    = ret out2 /\
    (n_pixels out2 <= n_pixels example_out)%nat.
Proof.
  assert (Hh : (2 <= length [0; 1; 2])%nat) by (cbn; lia).
  assert (Hv : (2 <= length [0; 1; 2; 3])%nat) by (cbn; lia).
  pose proof (calculate_habitat_runs example_depth example_velocity
                example_csv (Fin (3 / 5)) _ _ _ _ example_csv_curves Hh Hv)
    as Hrun2.
  cbv zeta in Hrun2.
  assert (Ht : flt (Fin (2 / 5)) (Fin (3 / 5)) = true)
    by (apply Rltb_true; lra).
  eexists; split; [exact Hrun2 |].
  exact (proj1 (proj2 (usable_count_antitone example_depth example_velocity
                         example_csv (Fin (2 / 5)) (Fin (3 / 5)) _ _
                         Ht example_run Hrun2))).
Defined.

(* ================================================================== *)
(** * Further properties of the script *)

(** ** When [piecewise_linear] returns *)

Lemma assign_length {A} (l : list A) (mask : list bool) (vals : list A) :
  length (Numpy.assign l mask vals) = length l.
Proof.
  revert mask vals; induction l as [| x l IH]; intros [| [|] mask] vals;
    simpl; try reflexivity.
  - destruct vals; simpl; now rewrite IH.
  - now rewrite IH.
Qed.

Lemma length_one_inv {A} (l : list A) : length l = 1%nat -> exists x, l = [x].
Proof.
  destruct l as [| x [| y l]]; simpl; intros H; try discriminate.
  now exists x.
Qed.

Lemma piecewise_linear_mismatch (values : ndarray) (x_pts y_pts : list R) :
  x_pts = [] \/ length y_pts <> length x_pts ->
  piecewise_linear values x_pts y_pts = raise ValueError.
Proof.
  intros [-> | Hne]; [reflexivity |].
  unfold piecewise_linear, Numpy.interp.
  destruct (Nat.eqb_spec (length x_pts) 0); [reflexivity |].
  destruct (Nat.eqb_spec (length y_pts) (length x_pts)); [contradiction |].
  reflexivity.
Qed.

Lemma any_map_spec {A} (p : A -> bool) (arr : list A) :
  Numpy.any (map p arr) = true <-> exists x, In x arr /\ p x = true.
Proof.
  split.
  - unfold Numpy.any; intros H. apply existsb_exists in H.
    destruct H as (b0 & Hin & ->). apply in_map_iff in Hin.
    destruct Hin as (x & Hx & Hin). now exists x.
  - intros (x & Hin & Hx). now apply (any_map_true p arr x).
Qed.

(** The four ways a call of [piecewise_linear] can go. *)
Lemma piecewise_linear_cases (values : ndarray) (x_pts y_pts : list R) :
  ((x_pts = [] \/ length y_pts <> length x_pts) /\
   piecewise_linear values x_pts y_pts = raise ValueError) \/
  (exists x y c,
     x_pts = [x] /\ y_pts = [y] /\ In c (cells values) /\
     (flt c (Fin x) = true \/ fgt c (Fin x) = true) /\
     piecewise_linear values x_pts y_pts = raise IndexError) \/
  (exists x y,
     x_pts = [x] /\ y_pts = [y] /\
     (forall c, In c (cells values) ->
        flt c (Fin x) = false /\ fgt c (Fin x) = false) /\
     piecewise_linear values x_pts y_pts
     = ret {| shape := shape values;
              cells := map (fun _ => Fin y) (cells values) |}) \/
  ((2 <= length x_pts)%nat /\ length y_pts = length x_pts /\
   piecewise_linear values x_pts y_pts
   = ret {| shape := shape values;
            cells := map (si_cell x_pts y_pts) (cells values) |}).
Proof.
  destruct (Nat.eq_dec (length y_pts) (length x_pts)) as [Hlen | Hlen];
    [| left; split; [now right | now apply piecewise_linear_mismatch; right]].
  destruct (le_lt_dec 2 (length x_pts)) as [Hn | Hn].
  { do 3 right. split; [assumption | split; [assumption |]].
    now apply piecewise_linear_cells. }
  destruct x_pts as [| x [| x' x_pts]]; [| | simpl in Hn; lia].
  { left; split; [now left | reflexivity]. }
  destruct (length_one_inv y_pts Hlen) as [y ->].
  right. rewrite piecewise_linear_one_point.
  destruct (Numpy.any (map (fun c => flt c (Fin x)) (cells values))) eqn:Hl.
  { left. apply any_map_spec in Hl. destruct Hl as (c & Hc & Hoff).
    exists x, y, c. repeat split; auto. }
  destruct (Numpy.any (map (fun c => fgt c (Fin x)) (cells values))) eqn:Hr.
  { left. apply any_map_spec in Hr. destruct Hr as (c & Hc & Hoff).
    exists x, y, c. repeat split; auto. }
  right; left. exists x, y. repeat split; try reflexivity.
  - now apply (any_map_false _ _ Hl).
  - now apply (any_map_false _ _ Hr).
Qed.

Lemma piecewise_linear_size (values si : ndarray) (x_pts y_pts : list R) :
  piecewise_linear values x_pts y_pts = ret si ->
  shape si = shape values /\ length (cells si) = length (cells values).
Proof.
  intros H.
  destruct (piecewise_linear_cases values x_pts y_pts)
    as [[_ E] | [(x & y & c & _ & _ & _ & _ & E) |
        [(x & y & _ & _ & _ & E) | (_ & _ & E)]]];
    rewrite E in H; try discriminate;
    unfold ret in H; inversion H; cbn [shape cells];
    now rewrite length_map.
Qed.

(** X1.  Whenever [piecewise_linear] returns, whatever the curve, the
    result has the shape of [values] and as many cells. *)
Theorem piecewise_linear_same_shape
  (values si : ndarray) (x_pts y_pts : list R) :
  piecewise_linear values x_pts y_pts = ret si ->
  shape si = shape values /\ length (cells si) = length (cells values).
Proof. apply piecewise_linear_size. Qed.

(** X2.  [piecewise_linear] returns exactly when the two arrays of the
    curve have one length and either there are two break points or
    more, or there is one and no cell lies below or above it.  It
    raises [ValueError] exactly when the curve is empty or the two
    lengths differ, and [IndexError] exactly when there is one break
    point and some cell lies below or above it. *)
Theorem piecewise_linear_outcome (values : ndarray) (x_pts y_pts : list R) :
  let off := fun c => flt c (Fin (nth 0 x_pts 0)) = true \/
                      fgt c (Fin (nth 0 x_pts 0)) = true in
  ((exists si, piecewise_linear values x_pts y_pts = ret si) <->
   length y_pts = length x_pts /\
   ((2 <= length x_pts)%nat \/
    length x_pts = 1%nat /\ forall c, In c (cells values) -> ~ off c)) /\
  (piecewise_linear values x_pts y_pts = raise ValueError <->
   x_pts = [] \/ length y_pts <> length x_pts) /\
  (piecewise_linear values x_pts y_pts = raise IndexError <->
   length x_pts = 1%nat /\ length y_pts = 1%nat /\
   exists c, In c (cells values) /\ off c).
Proof.
  intros off; subst off.
  destruct (piecewise_linear_cases values x_pts y_pts)
    as [[Hbad E] | [(x & y & c & -> & -> & Hc & Hoff & E) |
        [(x & y & -> & -> & Hon & E) | (Hn & Hlen & E)]]];
    rewrite E; cbn [nth length].
  - split; [| split].
    + split; [intros [si H]; discriminate |].
      intros [Hlen [Hn | [H1 _]]]; destruct Hbad as [-> | Hbad];
        simpl in *; try lia; contradiction.
    + tauto.
    + split; [discriminate |].
      intros (H1 & H1' & _); destruct Hbad as [-> | Hbad];
        simpl in *; try lia; congruence.
  - split; [| split].
    + split; [intros [si H]; discriminate |].
      intros [_ [Hn | [_ Hon]]]; [lia | now elim (Hon c Hc)].
    + split; [discriminate |]. intros [H | H]; [discriminate | now elim H].
    + split; [| reflexivity]. intros _. repeat split; eauto.
  - split; [| split].
    + split; [| now eexists]. intros _. split; [reflexivity | right].
      split; [reflexivity |]. intros c Hc [H | H];
        destruct (Hon c Hc); congruence.
    + split; [discriminate |]. intros [H | H]; [discriminate | now elim H].
    + split; [discriminate |]. intros (_ & _ & c & Hc & [H | H]);
        destruct (Hon c Hc); congruence.
  - split; [| split].
    + split; [| now eexists]. intros _. split; [assumption | now left].
    + split; [discriminate |].
      intros [-> | H]; [simpl in Hn; lia | contradiction].
    + split; [discriminate |]. intros (H1 & _); lia.
Qed.

(** ** The shape of the curve that [piecewise_linear] evaluates *)

(** X3.  The extrapolation continues the end segments: on ascending
    break points every finite cell up to the second break point lies on
    the line through the first two break points, and every finite cell
    from the last but one break point on lies on the line through the
    last two.  So the result is continuous at both ends of the domain. *)
Theorem end_segments_extend
  (values : ndarray) (x_pts y_pts : list R) (k : nat) (v : R) :
  ascending x_pts -> (2 <= length x_pts)%nat ->
  length y_pts = length x_pts ->
  nth_error (cells values) k = Some (Fin v) ->
  let n := length x_pts in
  exists si,
    piecewise_linear values x_pts y_pts = ret si /\
    (v <= nth 1 x_pts 0 ->
       nth_error (cells si) k
       = Some (Fin (line_through (nth 0 x_pts 0) (nth 0 y_pts 0)
                      (nth 1 x_pts 0) (nth 1 y_pts 0) v))) /\
    (nth (n - 2) x_pts 0 <= v ->
       nth_error (cells si) k
       = Some (Fin (line_through (nth (n - 2) x_pts 0) (nth (n - 2) y_pts 0)
                      (nth (n - 1) x_pts 0) (nth (n - 1) y_pts 0) v))).
Proof.
  intros Hasc Hn Hlen Hk n.
  eexists; split; [apply piecewise_linear_cells; assumption |].
  cbn [cells]. rewrite (map_nth_error _ _ _ Hk).
  destruct (si_cell_extrapolates x_pts y_pts (Fin v) Hasc Hn) as [Hleft Hright].
  fold n in Hleft, Hright.
  assert (H01 : nth 0 x_pts 0 < nth 1 x_pts 0)
    by (apply ascending_nth_lt; [assumption | lia]).
  assert (Hpl : nth (n - 2) x_pts 0 < nth (n - 1) x_pts 0)
    by (apply ascending_nth_lt; [assumption | subst n; lia]).
  assert (H1l : nth 1 x_pts 0 <= nth (n - 1) x_pts 0)
    by (apply ascending_nth_le; [assumption | subst n; lia]).
  assert (H0p : nth 0 x_pts 0 <= nth (n - 2) x_pts 0)
    by (apply ascending_nth_le; [assumption | subst n; lia]).
  split; intros Hv; f_equal.
  - destruct (Rlt_le_dec v (nth 0 x_pts 0)) as [Hlt | Hge].
    + rewrite Hleft by (now apply Rltb_true). reflexivity.
    + assert (Hin : nth 0 x_pts 0 <= v <= last x_pts 0)
        by (rewrite last_nth; fold n; lra).
      destruct (si_cell_interpolates x_pts y_pts v Hasc Hn Hin) as (_ & Hline & _).
      apply (Hline 0%nat); [lia | lra].
  - destruct (Rlt_le_dec (nth (n - 1) x_pts 0) v) as [Hgt | Hle].
    + rewrite Hright by (now apply Rltb_true).
      cbn [fsub fneg fadd fmul]. unfold line_through. f_equal. field. lra.
    + assert (Hin : nth 0 x_pts 0 <= v <= last x_pts 0)
        by (rewrite last_nth; fold n; lra).
      destruct (si_cell_interpolates x_pts y_pts v Hasc Hn Hin) as (_ & Hline & _).
      replace (n - 1)%nat with (S (n - 2)) by (subst n; lia).
      apply (Hline (n - 2)%nat); [subst n; lia |].
      replace (S (n - 2)) with (n - 1)%nat by (subst n; lia). lra.
Qed.

(** ** Break points that share their abscissa *)

Lemma nondecreasing_ends (xs : list R) :
  nondecreasing xs -> (2 <= length xs)%nat ->
  nth 0 xs 0 <= nth 1 xs 0 /\
  nth 1 xs 0 <= nth (length xs - 1) xs 0 /\
  nth 0 xs 0 <= nth (length xs - 2) xs 0 /\
  nth (length xs - 2) xs 0 <= nth (length xs - 1) xs 0.
Proof.
  intros Hs Hn; repeat split; apply nondecreasing_nth_le; auto; lia.
Qed.

(** X5.  Two break points with one abscissa at an end of a sorted curve
    make the slope of that end a division by zero.  Nothing raises: a
    finite cell left of the curve gets [-inf] when the curve rises
    there, [+inf] when it falls and [nan] when it is flat; a finite cell
    right of the curve gets [+inf], [-inf] and [nan]. *)
Theorem duplicate_end_abscissa
  (values : ndarray) (x_pts y_pts : list R) (k : nat) (v : R) :
  nondecreasing x_pts -> (2 <= length x_pts)%nat ->
  length y_pts = length x_pts ->
  nth_error (cells values) k = Some (Fin v) ->
  let n := length x_pts in
  exists si,
    piecewise_linear values x_pts y_pts = ret si /\
    (nth 0 x_pts 0 = nth 1 x_pts 0 -> v < nth 0 x_pts 0 ->
       (nth 0 y_pts 0 < nth 1 y_pts 0 ->
          nth_error (cells si) k = Some NInf) /\
       (nth 1 y_pts 0 < nth 0 y_pts 0 ->
          nth_error (cells si) k = Some PInf) /\
       (nth 0 y_pts 0 = nth 1 y_pts 0 ->
          nth_error (cells si) k = Some NaN)) /\
    (nth (n - 2) x_pts 0 = nth (n - 1) x_pts 0 -> nth (n - 1) x_pts 0 < v ->
       (nth (n - 2) y_pts 0 < nth (n - 1) y_pts 0 ->
          nth_error (cells si) k = Some PInf) /\
       (nth (n - 1) y_pts 0 < nth (n - 2) y_pts 0 ->
          nth_error (cells si) k = Some NInf) /\
       (nth (n - 2) y_pts 0 = nth (n - 1) y_pts 0 ->
          nth_error (cells si) k = Some NaN)).
Proof.
  intros Hs Hn Hlen Hk n.
  destruct (nondecreasing_ends x_pts Hs Hn) as (H01 & H1l & H0p & Hpl).
  fold n in H1l, H0p, Hpl.
  eexists; split; [apply piecewise_linear_cells; assumption |].
  cbn [cells]. rewrite (map_nth_error _ _ _ Hk).
  unfold si_cell, slope; fold n.
  split; intros Hx Hv.
  - assert (Hnot : fgt (Fin v) (Fin (nth (n - 1) x_pts 0)) = false)
      by (apply Rltb_false; lra).
    assert (Hlt : flt (Fin v) (Fin (nth 0 x_pts 0)) = true)
      by (now apply Rltb_true).
    rewrite Hnot, Hlt.
    repeat split; intros Hy; f_equal;
      cbv [fsub fneg fadd fdiv fmul signed_inf]; decide_reals; reflexivity.
  - assert (Hgt : fgt (Fin v) (Fin (nth (n - 1) x_pts 0)) = true)
      by (now apply Rltb_true).
    rewrite Hgt.
    repeat split; intros Hy; f_equal;
      cbv [fsub fneg fadd fdiv fmul signed_inf]; decide_reals; reflexivity.
Qed.

(** X6.  Where several break points of a sorted curve share an abscissa,
    a cell on that abscissa gets the ordinate of the last of them: the
    result at [x_pts[i]] is [y_pts[i]] whenever the next break point, if
    there is one, lies further right. *)
Theorem last_of_equal_abscissas_wins
  (values : ndarray) (x_pts y_pts : list R) (k i : nat) :
  nondecreasing x_pts -> (2 <= length x_pts)%nat ->
  length y_pts = length x_pts ->
  (i < length x_pts)%nat ->
  ((S i < length x_pts)%nat -> nth i x_pts 0 < nth (S i) x_pts 0) ->
  nth_error (cells values) k = Some (Fin (nth i x_pts 0)) ->
  exists si,
    piecewise_linear values x_pts y_pts = ret si /\
    nth_error (cells si) k = Some (Fin (nth i y_pts 0)).
Proof.
  intros Hs Hn Hlen Hi Hnext Hk.
  eexists; split; [apply piecewise_linear_cells; assumption |].
  cbn [cells]. rewrite (map_nth_error _ _ _ Hk). f_equal.
  set (v := nth i x_pts 0) in *.
  assert (Hin : nth 0 x_pts 0 <= v <= last x_pts 0).
  { rewrite last_nth. split; apply nondecreasing_nth_le; auto; lia. }
  rewrite si_cell_in_range, interp_cell_in_range by assumption.
  assert (Hj : i = Numpy.linear_search v (tl x_pts)).
  { destruct x_pts as [| x0 tl0]; [simpl in Hn; lia |].
    apply (search_determined v x0 tl0 i Hs (proj1 Hin) Hi); [subst v; lra |].
    exact Hnext. }
  rewrite <- Hj.
  destruct (i =? length x_pts - 1)%nat; [reflexivity |].
  now rewrite (proj2 (Reqb_true (nth i x_pts 0) v)) by reflexivity.
Qed.

(** ** What [read_suitability_csv] returns *)

Lemma insert_perm (p : R * R) (l : list (R * R)) :
  Permutation (Pandas.insert p l) (p :: l).
Proof.
  induction l as [| q l IH]; simpl; [apply Permutation_refl |].
  destruct (Rle_dec (fst p) (fst q)); [apply Permutation_refl |].
  apply Permutation_trans with (q :: p :: l);
    [now apply perm_skip | apply perm_swap].
Qed.

Lemma sort_values_perm (l : list (R * R)) :
  Permutation (Pandas.sort_values l) l.
Proof.
  induction l as [| p l IH]; simpl; [apply Permutation_refl |].
  apply Permutation_trans with (p :: Pandas.sort_values l);
    [apply insert_perm | now apply perm_skip].
Qed.

Lemma combine_fst_snd {A B} (l : list (A * B)) :
  combine (map fst l) (map snd l) = l.
Proof.
  induction l as [| [x y] l IH]; simpl; [reflexivity | now rewrite IH].
Qed.

Lemma dropna_In (rows : list (option R * option R)) (x y : R) :
  In (x, y) (Pandas.dropna rows) <-> In (Some x, Some y) rows.
Proof.
  induction rows as [| [[x' |] [y' |]] rows IH]; simpl;
    try (rewrite IH; split; [now right | intros [H | H]; [discriminate | assumption]]).
  - tauto.
  - rewrite IH. split; intros [H | H]; auto; left; congruence.
Qed.

(** X7.  The loader returns, for each of the two curves, the complete
    rows of the file and nothing else: sorted by abscissa, every pair
    once for every row that holds it, each ordinate still beside its
    abscissa.  A row counts for a curve as soon as the two fields of
    that curve are filled, whatever the fields of the other curve. *)
Theorem loaded_curves (raw : list csv_row) :
  exists h_pts si_h_pts v_pts si_v_pts,
    read_suitability_csv raw = ret (h_pts, si_h_pts, v_pts, si_v_pts) /\
    nondecreasing h_pts /\ nondecreasing v_pts /\
    Permutation (combine h_pts si_h_pts) (depth_points raw) /\
    Permutation (combine v_pts si_v_pts) (velocity_points raw) /\
    (forall x y,
       In (x, y) (combine h_pts si_h_pts) <->
       exists r, In r raw /\ col_h r = Some x /\ col_si_h r = Some y) /\
    (forall x y,
       In (x, y) (combine v_pts si_v_pts) <->
       exists r, In r raw /\ col_v r = Some x /\ col_si_v r = Some y).
Proof.
  unfold read_suitability_csv. do 4 eexists. split; [reflexivity |].
  rewrite !combine_fst_snd.
  fold (depth_points raw) (velocity_points raw).
  split; [apply sort_values_nondecreasing |].
  split; [apply sort_values_nondecreasing |].
  split; [apply sort_values_perm |].
  split; [apply sort_values_perm |].
  split; intros x y.
  - rewrite (Permutation_in' (eq_refl (x, y)) (sort_values_perm (depth_points raw))).
    unfold depth_points. rewrite dropna_In, in_map_iff.
    split; intros (r & H1 & H2); exists r.
    + inversion H1; auto.
    + destruct H2 as [-> ->]; auto.
  - rewrite (Permutation_in' (eq_refl (x, y)) (sort_values_perm (velocity_points raw))).
    unfold velocity_points. rewrite dropna_In, in_map_iff.
    split; intros (r & H1 & H2); exists r.
    + inversion H1; auto.
    + destruct H2 as [-> ->]; auto.
Qed.

Lemma nondecreasing_NoDup_ascending (xs : list R) :
  nondecreasing xs -> NoDup xs -> ascending xs.
Proof.
  induction xs as [| x [| y xs] IH]; intros Hs Hd; try exact I.
  destruct Hs as [Hxy Hs]. inversion Hd as [| ? ? Hnin Hd']; subst.
  split; [| now apply IH].
  destruct Hxy as [Hlt | Heq]; [assumption |].
  exfalso; apply Hnin; now left.
Qed.

(** X8.  Where the complete rows of a curve have pairwise different
    abscissas, the loader returns that curve with strictly ascending
    break points: what the interpolation asks for. *)
Theorem distinct_abscissas_load_ascending
  (raw : list csv_row) (h_pts si_h_pts v_pts si_v_pts : list R) :
  read_suitability_csv raw = ret (h_pts, si_h_pts, v_pts, si_v_pts) ->
  (NoDup (map fst (depth_points raw)) -> ascending h_pts) /\
  (NoDup (map fst (velocity_points raw)) -> ascending v_pts).
Proof.
  unfold read_suitability_csv, ret; intros H; inversion H; subst; clear H.
  fold (depth_points raw) (velocity_points raw).
  split; intros Hd; apply nondecreasing_NoDup_ascending;
    try apply sort_values_nondecreasing;
    eapply Permutation_NoDup; try exact Hd;
    apply Permutation_map, Permutation_sym, sort_values_perm.
Qed.

(** ** The rasters and the statistics of a run *)

Lemma read_masked_cells_length (src : dataset) :
  length (cells (Numpy.filled (Rasterio.read_masked src) NaN))
  = (height src * width src)%nat.
Proof.
  unfold Numpy.filled, Rasterio.read_masked; cbn [cells ma_data ma_mask].
  rewrite length_map, length_combine, !length_map, length_seq.
  apply Nat.min_id.
Qed.

Lemma read_velocity_lengths (dep_src vel_src : dataset) :
  length (ma_data (read_velocity dep_src vel_src))
  = (height dep_src * width dep_src)%nat /\
  length (ma_mask (read_velocity dep_src vel_src))
  = (height dep_src * width dep_src)%nat.
Proof.
  unfold read_velocity.
  destruct (negb (width vel_src =? width dep_src)%nat
            || negb (height vel_src =? height dep_src)%nat
            || negb (Affine.eqb (transform vel_src) (transform dep_src)))
    eqn:Htest.
  - unfold Numpy.masked_invalid, Rasterio.read_resampled;
      cbn [ma_data ma_mask cells].
    destruct ((height dep_src =? height vel_src)
              && (width dep_src =? width vel_src))%nat;
      now rewrite !length_map, length_seq.
  - apply grids_differ_false in Htest. destruct Htest as (Hw & Hh & _).
    unfold Numpy.masked_invalid, Rasterio.read_masked; cbn [ma_data ma_mask].
    rewrite Hw, Hh.
    rewrite !length_map, length_combine, !length_map, length_seq.
    now rewrite Nat.min_id.
Qed.

Lemma read_velocity_cells_length (dep_src vel_src : dataset) :
  length (cells (Numpy.filled (read_velocity dep_src vel_src) NaN))
  = (height dep_src * width dep_src)%nat.
Proof.
  destruct (read_velocity_lengths dep_src vel_src) as [Hd Hm].
  unfold Numpy.filled; cbn [cells].
  rewrite length_map, length_combine, Hd, Hm. apply Nat.min_id.
Qed.

Lemma count_nonzero_le (mask : list bool) :
  (Numpy.count_nonzero mask <= length mask)%nat.
Proof. unfold Numpy.count_nonzero. apply filter_length_le. Qed.

(** What a run that returns has computed. *)
Lemma calculate_habitat_result (dep_src vel_src : dataset) (csv : list csv_row)
  (threshold : float) (out : habitat) :
  calculate_habitat dep_src vel_src csv threshold = ret out ->
  let n := (height dep_src * width dep_src)%nat in
  shape (SI_depth out) = [height dep_src; width dep_src] /\
  shape (SI_velocity out) = [height dep_src; width dep_src] /\
  shape (cHSI out) = [height dep_src; width dep_src] /\
  length (cells (SI_depth out)) = n /\
  length (cells (SI_velocity out)) = n /\
  cells (cHSI out)
  = map fsqrt (map (fun '(x, y) => fmul x y)
                 (combine (cells (SI_depth out)) (cells (SI_velocity out)))) /\
  usable out = map (fun c => fgt c threshold) (cells (cHSI out)) /\
  n_pixels out = Numpy.count_nonzero (usable out) /\
  pixel_area_m2 out
  = Rabs (Affine.a (transform dep_src) * Affine.e (transform dep_src)) /\
  total_area_m2 out = INR (n_pixels out) * pixel_area_m2 out.
Proof.
  intros Hrun n.
  destruct (calculate_habitat_inv _ _ _ _ _ Hrun)
    as (hp & sh & vp & sv & _ & Hsih & Hsiv & Hshape & Hshape' & Hcells & Hall).
  destruct (piecewise_linear_size _ _ _ _ Hsih) as [Hs1 Hl1].
  destruct (piecewise_linear_size _ _ _ _ Hsiv) as [Hs2 Hl2].
  rewrite read_masked_cells_length in Hl1.
  rewrite read_velocity_cells_length in Hl2.
  change (shape (Numpy.filled (Rasterio.read_masked dep_src) NaN))
    with [height dep_src; width dep_src] in Hs1.
  rewrite (Hall threshold) in Hrun.
  unfold ret in Hrun; inversion Hrun as [Hout]; clear Hrun.
  rewrite <- Hout at 7 8 9 10 11 12; cbn [usable n_pixels pixel_area_m2 total_area_m2].
  repeat split; try assumption; try reflexivity; congruence.
Qed.

(** X9.  A run that returns hands over three rasters on the grid of the
    depth raster, one cell per pixel, whichever branch read the
    velocity and whatever the curves.  The usable pixels are at most
    the pixels of the grid, the area of a pixel is not negative, and
    the usable area lies between zero and the area of the grid. *)
Theorem run_rasters_on_depth_grid
  (dep_src vel_src : dataset) (csv : list csv_row) (threshold : float)
  (out : habitat) :
  calculate_habitat dep_src vel_src csv threshold = ret out ->
  let grid := [height dep_src; width dep_src] in
  let n := (height dep_src * width dep_src)%nat in
  shape (SI_depth out) = grid /\ length (cells (SI_depth out)) = n /\
  shape (SI_velocity out) = grid /\ length (cells (SI_velocity out)) = n /\
  shape (cHSI out) = grid /\ length (cells (cHSI out)) = n /\
  length (usable out) = n /\
  (n_pixels out <= n)%nat /\
  0 <= pixel_area_m2 out /\
  0 <= total_area_m2 out <= INR n * pixel_area_m2 out.
Proof.
  intros Hrun grid n.
  destruct (calculate_habitat_result _ _ _ _ _ Hrun)
    as (Hs1 & Hs2 & Hs3 & Hl1 & Hl2 & Hcells & Hus & Hn & Harea & Htotal).
  assert (Hl3 : length (cells (cHSI out)) = n).
  { rewrite Hcells, !length_map, length_combine, Hl1, Hl2. apply Nat.min_id. }
  assert (Hl4 : length (usable out) = n) by (now rewrite Hus, length_map).
  assert (Hle : (n_pixels out <= n)%nat)
    by (rewrite Hn, <- Hl4; apply count_nonzero_le).
  assert (Hpos : 0 <= pixel_area_m2 out) by (rewrite Harea; apply Rabs_pos).
  repeat split; try assumption.
  - rewrite Htotal. apply Rmult_le_pos; [apply pos_INR | assumption].
  - rewrite Htotal. apply Rmult_le_compat_r; [assumption | now apply le_INR].
Qed.

Lemma fsqrt_range (x : float) :
  fsqrt x = NaN \/ fsqrt x = PInf \/ exists r, fsqrt x = Fin r /\ 0 <= r.
Proof.
  destruct x as [r | | |]; simpl; auto.
  destruct (Rlt_dec r 0); [now left |].
  right; right. exists (sqrt r). split; [reflexivity | apply sqrt_pos].
Qed.

Lemma count_nonzero_none (l : list float) (t : float) :
  (forall c, In c l -> fgt c t = false) ->
  Numpy.count_nonzero (map (fun c => fgt c t) l) = 0%nat.
Proof.
  intros H; rewrite count_nonzero_map.
  induction l as [| c l IH]; [reflexivity |].
  simpl. rewrite (H c) by now left. apply IH.
  intros c' Hc'; apply H; now right.
Qed.

(** X10.  cHSI is never negative: a cell is missing, [+inf], or a number
    that is not below zero.  Hence with a negative threshold every cell
    that is not missing is usable, and with the threshold [nan] or
    [+inf] none is and the usable area is zero. *)
Theorem chsi_never_negative
  (dep_src vel_src : dataset) (csv : list csv_row) (threshold : float)
  (out : habitat) :
  calculate_habitat dep_src vel_src csv threshold = ret out ->
  (forall c, In c (cells (cHSI out)) ->
     c = NaN \/ c = PInf \/ exists r, c = Fin r /\ 0 <= r) /\
  (forall t, threshold = Fin t -> t < 0 ->
     n_pixels out
     = length (filter (fun c => negb (isnan c)) (cells (cHSI out)))) /\
  (threshold = NaN \/ threshold = PInf ->
     n_pixels out = 0%nat /\ total_area_m2 out = 0).
Proof.
  intros Hrun.
  destruct (calculate_habitat_result _ _ _ _ _ Hrun)
    as (_ & _ & _ & _ & _ & Hcells & Hus & Hn & _ & Htotal).
  assert (Hrange : forall c, In c (cells (cHSI out)) ->
            c = NaN \/ c = PInf \/ exists r, c = Fin r /\ 0 <= r).
  { intros c Hc. rewrite Hcells in Hc. apply in_map_iff in Hc.
    destruct Hc as (x & <- & _). apply fsqrt_range. }
  split; [exact Hrange | split].
  - intros t -> Ht. rewrite Hn, Hus, count_nonzero_map.
    f_equal. apply filter_ext_in. intros c Hc.
    destruct (Hrange c Hc) as [-> | [-> | (r & -> & Hr)]]; try reflexivity.
    simpl. apply Rltb_true. lra.
  - intros Ht.
    assert (H0 : n_pixels out = 0%nat).
    { rewrite Hn, Hus. apply count_nonzero_none.
      intros c _. destruct Ht as [-> | ->]; destruct c; reflexivity. }
    split; [assumption |]. rewrite Htotal, H0. simpl. lra.
Qed.

Lemma fmul_comm (x y : float) : fmul x y = fmul y x.
Proof.
  destruct x, y; simpl; try reflexivity. f_equal; ring.
Qed.

Lemma map_fmul_combine_comm (l l' : list float) :
  map (fun '(x, y) => fmul x y) (combine l l')
  = map (fun '(x, y) => fmul x y) (combine l' l).
Proof.
  revert l'; induction l as [| x l IH]; intros [| y l']; simpl; try reflexivity.
  now rewrite fmul_comm, IH.
Qed.

(** X12.  Compositing does not depend on the order of the two SI
    rasters: for two arrays of one shape, [np.sqrt(a * b)] and
    [np.sqrt(b * a)] are the same array, infinite and missing cells
    included. *)
Theorem compositing_commutes (si_h si_v : ndarray) :
  shape si_h = shape si_v ->
  exists chsi,
    (prod <- Numpy.multiply si_h si_v ;; ret (Numpy.sqrt prod)) = ret chsi /\
    (prod <- Numpy.multiply si_v si_h ;; ret (Numpy.sqrt prod)) = ret chsi.
Proof.
  intros Hshape. unfold Numpy.multiply.
  destruct (list_eq_dec Nat.eq_dec (shape si_h) (shape si_v)); [| contradiction].
  destruct (list_eq_dec Nat.eq_dec (shape si_v) (shape si_h)); [| congruence].
  eexists; split; [reflexivity |].
  rewrite !bind_ret. unfold Numpy.sqrt, ret; cbn [shape cells].
  now rewrite Hshape, map_fmul_combine_comm.
Qed.

(** ** Samples that are not finite *)

Lemma velocity_invalid_masked (dep_src vel_src : dataset) (k : nat) (d0 : float) :
  (k < height dep_src * width dep_src)%nat ->
  nth_error (ma_data (read_velocity dep_src vel_src)) k = Some d0 ->
  isnan d0 || isinf d0 = true ->
  nth_error (cells (Numpy.filled (read_velocity dep_src vel_src) NaN)) k
  = Some NaN.
Proof.
  intros Hk Hd Hinv.
  destruct (velocity_cell dep_src vel_src k Hk) as [Hsame Hdiff].
  destruct (same_grid_dec dep_src vel_src) as [Hgrid | Hgrid].
  - destruct (Hsame Hgrid) as [Hd' Hm]. rewrite Hd in Hd'.
    injection Hd' as Hd'. rewrite <- Hd' in Hm.
    rewrite (filled_nth _ NaN k _ _ Hd Hm), Hinv. reflexivity.
  - destruct (Hdiff Hgrid) as [Hd' Hm]. rewrite Hd in Hd'.
    injection Hd' as Hd'. rewrite <- Hd' in Hm.
    rewrite (filled_nth _ NaN k _ _ Hd Hm), Hinv. reflexivity.
Qed.

Lemma slope_sign (x0 y0 x1 y1 : R) :
  x0 < x1 ->
  (y0 < y1 -> 0 < (y1 - y0) / (x1 - x0)) /\
  (y1 < y0 -> (y1 - y0) / (x1 - x0) < 0) /\
  (y0 = y1 -> (y1 - y0) / (x1 - x0) = 0).
Proof.
  intros Hx.
  assert (Hinv : 0 < / (x1 - x0)) by (apply Rinv_0_lt_compat; lra).
  unfold Rdiv. repeat split; intros Hy.
  - apply Rmult_lt_0_compat; lra.
  - replace ((y1 - y0) * / (x1 - x0)) with (- ((y0 - y1) * / (x1 - x0))) by ring.
    assert (0 < (y0 - y1) * / (x1 - x0)) by (apply Rmult_lt_0_compat; lra).
    lra.
  - subst; ring.
Qed.

(** X13.  The two rasters are not treated alike.  The velocity goes
    through [masked_invalid] on either branch, so a velocity sample that
    is infinite or [nan] is missing: SI-v and cHSI are missing there.
    The depth does not: an unflagged depth sample [+inf] is interpolated
    like a number right of the curve, which gives SI-h [+inf] when the
    last segment of an ascending curve rises, [-inf] when it falls and
    [nan] when it is flat. *)
Theorem samples_that_are_not_finite
  (dep_src vel_src : dataset) (csv : list csv_row) (threshold : float)
  (h_pts si_h_pts v_pts si_v_pts : list R) (k : nat) :
  read_suitability_csv csv = ret (h_pts, si_h_pts, v_pts, si_v_pts) ->
  (2 <= length h_pts)%nat -> (2 <= length v_pts)%nat ->
  (k < height dep_src * width dep_src)%nat ->
  let n := length h_pts in
  exists out,
    calculate_habitat dep_src vel_src csv threshold = ret out /\
    (forall d0,
       nth_error (ma_data (read_velocity dep_src vel_src)) k = Some d0 ->
       isnan d0 || isinf d0 = true ->
       nth_error (cells (SI_velocity out)) k = Some NaN /\
       nth_error (cells (cHSI out)) k = Some NaN) /\
    (ascending h_pts ->
     nodata dep_src k = false -> band dep_src k = PInf ->
       (nth (n - 2) si_h_pts 0 < nth (n - 1) si_h_pts 0 ->
          nth_error (cells (SI_depth out)) k = Some PInf) /\
       (nth (n - 1) si_h_pts 0 < nth (n - 2) si_h_pts 0 ->
          nth_error (cells (SI_depth out)) k = Some NInf) /\
       (nth (n - 2) si_h_pts 0 = nth (n - 1) si_h_pts 0 ->
          nth_error (cells (SI_depth out)) k = Some NaN)).
Proof.
  intros Hcsv Hh Hv Hk n.
  eexists; split;
    [apply (calculate_habitat_runs _ _ _ _ _ _ _ _ Hcsv Hh Hv) |].
  cbn [SI_depth SI_velocity cHSI cells].
  pose proof (depth_cell dep_src k Hk) as Hdep.
  pose proof (map_nth_error (si_cell h_pts si_h_pts) _ _ Hdep) as Hsih.
  split.
  - intros d0 Hd Hinv.
    pose proof (velocity_invalid_masked _ _ _ _ Hk Hd Hinv) as Hvel.
    pose proof (map_nth_error (si_cell v_pts si_v_pts) _ _ Hvel) as Hsiv.
    split; [exact Hsiv |].
    rewrite (chsi_cell _ _ _ _ _ Hsih Hsiv), si_cell_nan, fmul_nan_r.
    reflexivity.
  - intros Hasc Hflag Hband.
    rewrite Hsih, Hflag, Hband.
    assert (Hpl : nth (n - 2) h_pts 0 < nth (n - 1) h_pts 0)
      by (apply ascending_nth_lt; [assumption | subst n; lia]).
    destruct (slope_sign _ (nth (n - 2) si_h_pts 0) _ (nth (n - 1) si_h_pts 0) Hpl)
      as (Hrise & Hfall & Hflat).
    unfold si_cell; fold n. cbn [fgt flt].
    rewrite slope_fin by lra.
    cbn [fsub fneg fadd fmul]. unfold signed_inf.
    repeat split; intros Hy; f_equal.
    + specialize (Hrise Hy). decide_reals. reflexivity.
    + specialize (Hfall Hy). decide_reals. reflexivity.
    + specialize (Hflat Hy). rewrite Hflat. decide_reals. reflexivity.
Qed.

(** ** The velocity raster that enters the interpolator *)

(** X15.  Whichever branch reads it, the velocity raster that enters the
    interpolator has the shape of the depth raster and one cell per
    pixel of its grid.  On one grid (equal width, height and transform)
    every cell holds the sample stored in the velocity file and is
    masked exactly when the file flags it or the sample is not finite. *)
Theorem velocity_on_depth_grid (dep_src vel_src : dataset) :
  let velocity := read_velocity dep_src vel_src in
  let n := (height dep_src * width dep_src)%nat in
  ma_shape velocity = [height dep_src; width dep_src] /\
  length (ma_data velocity) = n /\ length (ma_mask velocity) = n /\
  (same_grid dep_src vel_src ->
   n = (height vel_src * width vel_src)%nat /\
   forall k, (k < n)%nat ->
     nth_error (ma_data velocity) k = Some (band vel_src k) /\
     nth_error (ma_mask velocity) k
     = Some (isnan (band vel_src k) || isinf (band vel_src k)
             || nodata vel_src k)).
Proof.
  intros velocity n.
  destruct (read_velocity_lengths dep_src vel_src) as [Hd Hm].
  split; [apply read_velocity_shape |].
  split; [exact Hd | split; [exact Hm |]].
  intros Hgrid. split.
  - destruct Hgrid as (Hw & Hh & _). subst n. now rewrite Hw, Hh.
  - intros k Hk.
    destruct (velocity_cell dep_src vel_src k Hk) as [Hsame _].
    exact (Hsame Hgrid).
Qed.

(** ** How a run ends *)

(** For a curve with as many ordinates as abscissas there are three
    outcomes, and they exclude one another. *)
Lemma piecewise_linear_trichotomy (values : ndarray) (x_pts y_pts : list R) :
  length y_pts = length x_pts ->
  (x_pts = [] /\ ~ interpolable x_pts values /\
   piecewise_linear values x_pts y_pts = raise ValueError) \/
  (length x_pts = 1%nat /\ ~ on_point x_pts values /\
   ~ interpolable x_pts values /\
   piecewise_linear values x_pts y_pts = raise IndexError) \/
  (interpolable x_pts values /\ x_pts <> [] /\
   ~ (length x_pts = 1%nat /\ ~ on_point x_pts values) /\
   exists si, piecewise_linear values x_pts y_pts = ret si).
Proof.
  intros Hlen. unfold interpolable, on_point.
  destruct (piecewise_linear_cases values x_pts y_pts)
    as [[Hbad E] | [(x & y & c & -> & -> & Hc & Hoff & E) |
        [(x & y & -> & -> & Hon & E) | (Hn & _ & E)]]].
  - destruct Hbad as [-> | Hbad]; [| contradiction].
    left. split; [reflexivity | split; [| assumption]].
    simpl; intros [H | [H _]]; lia.
  - right; left.
    assert (Hnot : ~ (forall c0, In c0 (cells values) ->
                        flt c0 (Fin (nth 0 [x] 0)) = false /\
                        fgt c0 (Fin (nth 0 [x] 0)) = false)).
    { intros Hon. destruct (Hon c Hc) as [H1 H2]. cbn [nth] in H1, H2.
      destruct Hoff; congruence. }
    split; [reflexivity | split; [exact Hnot | split; [| assumption]]].
    simpl; intros [H | [_ H]]; [lia | contradiction].
  - do 2 right. split; [right; split; [reflexivity | exact Hon] |].
    split; [discriminate | split; [| eexists; exact E]].
    intros [_ H]; apply H; exact Hon.
  - do 2 right. split; [now left |].
    split; [intros ->; simpl in Hn; lia | split; [| eexists; exact E]].
    intros [H _]; lia.
Qed.

(** X14.  What the outcome of a run tells about the two curves and the
    cells that enter the interpolator, the depth curve first.  A run
    that returns had two curves that can be interpolated (two break
    points or more, or one with every cell on it).  A run that raises
    [ValueError] had an empty depth curve, or a depth curve that can be
    interpolated and an empty velocity curve.  A run that raises
    [IndexError] had a depth curve of one break point with some depth
    cell off it, or a depth curve that can be interpolated and a
    velocity curve failing in that way. *)
Theorem run_outcome
  (dep_src vel_src : dataset) (csv : list csv_row) (threshold : float)
  (h_pts si_h_pts v_pts si_v_pts : list R) :
  read_suitability_csv csv = ret (h_pts, si_h_pts, v_pts, si_v_pts) ->
  let depth := Numpy.filled (Rasterio.read_masked dep_src) NaN in
  let velocity := Numpy.filled (read_velocity dep_src vel_src) NaN in
  ((exists out, calculate_habitat dep_src vel_src csv threshold = ret out) ->
   interpolable h_pts depth /\ interpolable v_pts velocity) /\
  (calculate_habitat dep_src vel_src csv threshold = raise ValueError ->
   h_pts = [] \/ (interpolable h_pts depth /\ v_pts = [])) /\
  (calculate_habitat dep_src vel_src csv threshold = raise IndexError ->
   (length h_pts = 1%nat /\ ~ on_point h_pts depth) \/
   (interpolable h_pts depth /\
    length v_pts = 1%nat /\ ~ on_point v_pts velocity)).
Proof.
  intros Hcsv depth velocity.
  destruct (read_suitability_csv_lengths _ _ _ _ _ Hcsv) as [Hlh Hlv].
  unfold calculate_habitat. rewrite Hcsv, bind_ret.
  fold depth velocity.
  destruct (piecewise_linear_trichotomy depth h_pts si_h_pts Hlh)
    as [(Hh0 & Hhn & Eh) | [(Hh1 & Hhoff & Hhn & Eh) |
        (Hhi & Hhne & Hhx & si_h & Eh)]];
    rewrite Eh.
  - change (bind (raise ValueError) ?k) with (@raise habitat ValueError).
    split; [intros [out H]; discriminate | split].
    + intros _; now left.
    + discriminate.
  - change (bind (raise IndexError) ?k) with (@raise habitat IndexError).
    split; [intros [out H]; discriminate | split].
    + discriminate.
    + intros _; now left.
  - rewrite bind_ret.
    destruct (piecewise_linear_trichotomy velocity v_pts si_v_pts Hlv)
      as [(Hv0 & Hvn & Ev) | [(Hv1 & Hvoff & Hvn & Ev) |
          (Hvi & Hvne & Hvx & si_v & Ev)]];
      rewrite Ev.
    + change (bind (raise ValueError) ?k) with (@raise habitat ValueError).
      split; [intros [out H]; discriminate | split].
      * intros _; now right.
      * discriminate.
    + change (bind (raise IndexError) ?k) with (@raise habitat IndexError).
      split; [intros [out H]; discriminate | split].
      * discriminate.
      * intros _; now right.
    + rewrite bind_ret.
      split; [intros _; now split |].
      destruct (piecewise_linear_size _ _ _ _ Eh) as [Hs1 _].
      destruct (piecewise_linear_size _ _ _ _ Ev) as [Hs2 _].
      unfold Numpy.multiply.
      destruct (list_eq_dec Nat.eq_dec (shape si_h) (shape si_v)) as [_ | Hne].
      * rewrite bind_ret. unfold statistics. split; discriminate.
      * exfalso; apply Hne. rewrite Hs1, Hs2.
        subst depth velocity. unfold Numpy.filled; cbn [shape].
        now rewrite read_velocity_shape.
Qed.

(* ================================================================== *)
(** * The further properties at work on the examples *)

Lemma example_curve_facts :
  ascending example_x /\ (2 <= length example_x)%nat /\
  length example_y = length example_x /\ nondecreasing example_y.
Proof. cbn. repeat split; try lra; lia. Defined.

(** The worked example keeps its shape and its six cells. *)
Lemma piecewise_linear_same_shape_witness :
  exists si,
    piecewise_linear example_values example_x example_y = ret si /\
    shape si = [6%nat] /\ length (cells si) = 6%nat.
Proof.
  destruct example_curve_facts as (_ & Hn & Hlen & _).
  pose proof (piecewise_linear_cells example_values example_x example_y Hn Hlen)
    as Hrun.
  eexists; split; [exact Hrun |].
  exact (piecewise_linear_same_shape _ _ _ _ Hrun).
Defined.

(** Cell 0 of the worked example, -1, lies on the line of the first
    segment; cell 5, 3, on the line of the last. *)
Lemma end_segments_extend_witness :
  exists si,
    piecewise_linear example_values example_x example_y = ret si /\
    nth_error (cells si) 0 = Some (Fin (line_through 0 0 1 (1 / 2) (-1))) /\
    nth_error (cells si) 5 = Some (Fin (line_through 1 (1 / 2) 2 1 3)).
Proof.
  destruct example_curve_facts as (Hasc & Hn & Hlen & _).
  destruct (end_segments_extend example_values example_x example_y 0 (-1)
              Hasc Hn Hlen eq_refl) as (si & Hsi & Hleft & _).
  destruct (end_segments_extend example_values example_x example_y 5 3
              Hasc Hn Hlen eq_refl) as (si' & Hsi' & _ & Hright).
  rewrite Hsi in Hsi'. injection Hsi' as <-.
  exists si; split; [exact Hsi | split].
  - apply Hleft. cbn; lra.
  - apply Hright. cbn; lra.
Defined.

Lemma tied_curve_facts :
  nondecreasing tied_x /\ (2 <= length tied_x)%nat /\
  length tied_y = length tied_x.
Proof. cbn. repeat split; try lra; lia. Defined.

(** The tied curve rises at its left end, where the slope is a division
    by zero: cell 0 of the worked values, -1, gets [-inf]. *)
Lemma duplicate_end_abscissa_witness :
  exists si,
    piecewise_linear example_values tied_x tied_y = ret si /\
    nth_error (cells si) 0 = Some NInf.
Proof.
  destruct tied_curve_facts as (Hs & Hn & Hlen).
  destruct (duplicate_end_abscissa example_values tied_x tied_y 0 (-1)
              Hs Hn Hlen eq_refl) as (si & Hsi & Hleft & _).
  exists si; split; [exact Hsi |].
  assert (Hx : nth 0 tied_x 0 = nth 1 tied_x 0) by reflexivity.
  assert (Hv : -1 < nth 0 tied_x 0) by (cbn; lra).
  destruct (Hleft Hx Hv) as (Hrise & _).
  apply Hrise. cbn; lra.
Defined.

(** On the tied curve the cell 1 gets the ordinate of the second of the
    two break points at 1. *)
Lemma last_of_equal_abscissas_wins_witness :
  exists si,
    piecewise_linear example_values tied_x tied_y = ret si /\
    nth_error (cells si) 3 = Some (Fin (1 / 2)).
Proof.
  destruct tied_curve_facts as (Hs & Hn & Hlen).
  assert (Hi : (1 < length tied_x)%nat) by (cbn; lia).
  assert (Hnext : (2 < length tied_x)%nat -> nth 1 tied_x 0 < nth 2 tied_x 0)
    by (intros _; cbn; lra).
  exact (last_of_equal_abscissas_wins example_values tied_x tied_y 3 1
           Hs Hn Hlen Hi Hnext eq_refl).
Defined.

(** The abscissas of the example file differ, so both curves load with
    ascending break points. *)
Lemma distinct_abscissas_load_ascending_witness :
  ascending [0; 1; 2] /\ ascending [0; 1; 2; 3].
Proof.
  destruct (distinct_abscissas_load_ascending example_csv _ _ _ _
              example_csv_curves) as [Hdepth Hvel].
  split.
  - apply Hdepth. cbn.
    repeat (constructor; [cbn; intros H; decompose [or] H; lra |]).
    constructor.
  - apply Hvel. cbn.
    repeat (constructor; [cbn; intros H; decompose [or] H; lra |]).
    constructor.
Defined.

(** The small run: three rasters of two by two cells, at most four
    usable pixels. *)
Lemma run_rasters_on_depth_grid_witness :
  shape (cHSI example_out) = [2; 2]%nat /\
  length (cells (cHSI example_out)) = 4%nat /\
  (n_pixels example_out <= 4)%nat /\
  0 <= total_area_m2 example_out <= INR 4 * pixel_area_m2 example_out.
Proof.
  destruct (run_rasters_on_depth_grid example_depth example_velocity
              example_csv (Fin (2 / 5)) example_out example_run)
    as (_ & _ & _ & _ & Hs & Hl & _ & Hn & _ & Ht).
  repeat split; try assumption; apply Ht.
Defined.

(** No cell of the cHSI of the small run is negative. *)
Lemma chsi_never_negative_witness :
  Forall (fun c => c = NaN \/ c = PInf \/ exists r, c = Fin r /\ 0 <= r)
    (cells (cHSI example_out)).
Proof.
  apply Forall_forall.
  exact (proj1 (chsi_never_negative example_depth example_velocity
                  example_csv (Fin (2 / 5)) example_out example_run)).
Defined.

(** The two SI rasters of the small run, in either order. *)
Lemma compositing_commutes_witness :
  exists chsi,
    (prod <- Numpy.multiply (SI_depth example_out) (SI_velocity example_out) ;;
     ret (Numpy.sqrt prod)) = ret chsi /\
    (prod <- Numpy.multiply (SI_velocity example_out) (SI_depth example_out) ;;
     ret (Numpy.sqrt prod)) = ret chsi.
Proof.
  exact (compositing_commutes (SI_depth example_out) (SI_velocity example_out)
           eq_refl).
Defined.

Lemma example_three_four :
  (2 <= length [0; 1; 2])%nat /\ (2 <= length [0; 1; 2; 3])%nat /\
  (0 < 2 * 2)%nat.
Proof. cbn; lia. Defined.

(** An infinite first sample: missing in SI-v, [+inf] in SI-h, since the
    depth curve rises on its last segment. *)
Lemma samples_that_are_not_finite_witness :
  exists out,
    calculate_habitat example_depth_inf example_velocity_inf example_csv
      (Fin (2 / 5)) = ret out /\
    nth_error (cells (SI_velocity out)) 0 = Some NaN /\
    nth_error (cells (cHSI out)) 0 = Some NaN /\
    nth_error (cells (SI_depth out)) 0 = Some PInf.
Proof.
  destruct example_three_four as (Hh & Hv & Hk).
  destruct (samples_that_are_not_finite example_depth_inf example_velocity_inf
              example_csv (Fin (2 / 5)) _ _ _ _ 0 example_csv_curves Hh Hv Hk)
    as (out & Hout & Hvel & Hdep).
  assert (Hgrid : same_grid example_depth_inf example_velocity_inf)
    by (repeat split).
  assert (Hk' : (0 < height example_depth_inf * width example_depth_inf)%nat)
    by exact Hk.
  destruct (velocity_cell example_depth_inf example_velocity_inf 0 Hk')
    as [Hsame _].
  destruct (Hsame Hgrid) as [Hd _].
  destruct (Hvel _ Hd eq_refl) as [Hsiv Hchsi].
  assert (Hasc : ascending [0; 1; 2]) by (cbn; lra).
  destruct (Hdep Hasc eq_refl eq_refl) as (Hrise & _).
  exists out. repeat split; try assumption.
  apply Hrise. cbn; lra.
Defined.

(** The small run returns, so both curves of the example file could be
    interpolated on its cells. *)
Lemma run_outcome_witness :
  interpolable [0; 1; 2]
    (Numpy.filled (Rasterio.read_masked example_depth) NaN) /\
  interpolable [0; 1; 2; 3]
    (Numpy.filled (read_velocity example_depth example_velocity) NaN).
Proof.
  apply (proj1 (run_outcome example_depth example_velocity example_csv
                  (Fin (2 / 5)) _ _ _ _ example_csv_curves)).
  exists example_out. exact example_run.
Defined.
